(** * Attendance tracker: the Express/SQLite server and the React viewer

    A shallow embedding of [src/server.ts] (the HTTP and WebSocket server
    over a two-table SQLite store) and of the viewer component that follows
    it in the same file (snapshot fetch with fallback, realtime
    reconciliation), together with the properties of the specification
    that were checked against them.

    Conventions of the embedding:
    - a request field is a JSON scalar or [Undefined] (the field is absent);
      arrays and objects are outside the model;
    - a JSON number is the rational it denotes (a finite double is one);
    - a string is the sequence of bytes of its UTF-8 encoding;
    - the database is explicit state: two lists of rows in rowid order, the
      AUTOINCREMENT high-water mark and the foreign-key pragma;
    - a statement that throws is a [None]; the handlers spell out what
      their [try]/[catch] does with it. *)

From Stdlib Require Import ZArith QArith String Ascii List Bool Lia DecimalString.
From stdpp Require Import base list strings.

Open Scope string_scope.
Open Scope list_scope.
Open Scope Z_scope.

(** ** JavaScript values carried by a request body *)

Module JS.

Inductive value : Type :=
| Undefined
| Null
| Bool (b : bool)
| Num (q : Q)
| Str (s : string).

(** [ToBoolean]: what [!x] negates. *)
Definition truthy (v : value) : bool :=
  match v with
  | Undefined | Null => false
  | Bool b => b
  | Num q => negb (Qeq_bool q 0)
  | Str s => negb (String.eqb s "")
  end.

(** [x === undefined]. *)
Definition is_undefined (v : value) : bool :=
  match v with Undefined => true | _ => false end.

(** An integer-valued number, as the viewer and the tests send it. *)
Definition int (z : Z) : value := Num (inject_Z z).

(** [String(n)] for an integer-valued number [n]. *)
Definition String_of_int (z : Z) : string := NilZero.string_of_int (Z.to_int z).

End JS.

(** ** SQLite values, numeric affinity and comparison *)

Module Sqlite.

(** Storage classes (blobs never occur). *)
Inductive value : Type :=
| NULL
| INTEGER (z : Z)
| REAL (q : Q)
| TEXT (s : string).

Definition isspace (c : ascii) : bool :=
  match N_of_ascii c with
  | 9%N | 10%N | 11%N | 12%N | 13%N | 32%N => true
  | _ => false
  end.

Definition digit (c : ascii) : option Z :=
  let n := Z.of_N (N_of_ascii c) in
  if (48 <=? n) && (n <=? 57) then Some (n - 48) else None.

Fixpoint skip_spaces (l : list ascii) : list ascii :=
  match l with
  | c :: r => if isspace c then skip_spaces r else l
  | [] => []
  end.

(** Reads a run of decimal digits onto [acc]; also counts them. *)
Fixpoint digits (l : list ascii) (acc : Z) (n : nat) : Z * nat * list ascii :=
  match l with
  | c :: r =>
      match digit c with
      | Some d => digits r (10 * acc + d) (S n)
      | None => (acc, n, l)
      end
  | [] => (acc, n, [])
  end.

Definition sign (l : list ascii) : bool * list ascii :=
  match l with
  | "-"%char :: r => (true, r)
  | "+"%char :: r => (false, r)
  | _ => (false, l)
  end.

Definition scale (m e : Z) : Q :=
  if 0 <=? e then inject_Z (m * 10 ^ e) else Qmake m (Z.to_pos (10 ^ (- e))).

(** The text-to-number recogniser of the engine: optional blanks, sign,
    digits, optional fraction, optional exponent, optional blanks, and
    nothing else.  [None] when the text is not a well-formed literal.
    The engine rounds the value to a double; the model keeps the exact
    decimal value. *)
Definition AtoF (s : string) : option Q :=
  match skip_spaces (list_ascii_of_string s) with
  | [] => None
  | z =>
      let '(neg, z) := sign z in
      let '(ip, ni, z) := digits z 0 0%nat in
      let '(m, nf, z) :=
        match z with
        | "."%char :: r => digits r ip 0%nat
        | _ => (ip, 0%nat, z)
        end in
      let '(e, eValid, z) :=
        match z with
        | "e"%char :: r | "E"%char :: r =>
            let '(eneg, r) := sign r in
            let '(ev, ne, r) := digits r 0 0%nat in
            (if eneg then - ev else ev, negb (Nat.eqb ne 0), r)
        | _ => (0, true, z)
        end in
      match skip_spaces z with
      | [] =>
          if Nat.ltb 0 (ni + nf) && eValid
          then Some (scale (if neg then - m else m) (e - Z.of_nat nf))
          else None
      | _ => None
      end
  end.

(** A number is stored as INTEGER when it is integral, as REAL otherwise. *)
Definition of_Q (q : Q) : value :=
  let r := Qred q in
  if Pos.eqb (Qden r) 1 then INTEGER (Qnum r) else REAL r.

(** Numeric affinity, as applied to a value stored into an INTEGER column
    and to the operand compared with such a column. *)
Definition apply_affinity (v : value) : value :=
  match v with
  | TEXT s => match AtoF s with Some q => of_Q q | None => v end
  | REAL q => of_Q q
  | _ => v
  end.

(** How the driver binds a JavaScript argument to a [?]: numbers as
    doubles, strings as text, [null] and [undefined] as NULL; a boolean
    is refused with a TypeError. *)
Definition bind (v : JS.value) : option value :=
  match v with
  | JS.Num q => Some (REAL q)
  | JS.Str s => Some (TEXT s)
  | JS.Null | JS.Undefined => Some NULL
  | JS.Bool _ => None
  end.

(** The bound argument as it meets an INTEGER column. *)
Definition param (v : JS.value) : option value :=
  apply_affinity <$> bind v.

Definition numeric (v : value) : option Q :=
  match v with
  | INTEGER z => Some (inject_Z z)
  | REAL q => Some q
  | _ => None
  end.

(** The truth of [a = b] in a WHERE clause or a uniqueness check: NULL is
    equal to nothing, numbers compare by value, text by bytes, and a
    number never equals a text. *)
Definition eq (a b : value) : bool :=
  match a, b with
  | NULL, _ | _, NULL => false
  | TEXT s, TEXT t => String.eqb s t
  | TEXT _, _ | _, TEXT _ => false
  | _, _ =>
      match numeric a, numeric b with
      | Some p, Some q => Qeq_bool p q
      | _, _ => false
      end
  end.

End Sqlite.

(** ** Configuration constants (the same in the server and in the viewer) *)

Definition MEETING_DATES : list string :=
  [ "3/8"; "3/15"; "3/22";
    "4/12"; "4/19";
    "5/10"; "5/17"; "5/24";
    "6/14"; "6/21" ].

Definition INITIAL_NAMES : list string :=
  [ "배다희"; "손여원"; "김태린"; "현요섭"; "김승우";
    "이은총"; "조영광"; "문하은"; "최예인"; "로이";
    "서다현"; "사예한"; "이다율"; "방태산"; "이은서";
    "민유진"; "이태은"; "허진주"; "오나윤"; "시온" ].

(** [MEETING_DATES.length], the number N of date slots. *)
Definition N : Z := Z.of_nat (length MEETING_DATES).

(** ** The database: tables [students] and [attendance] *)

Module Db.

(** [students (id INTEGER PRIMARY KEY AUTOINCREMENT, name TEXT NOT NULL)] *)
Record student_row : Type := StudentRow { s_id : Z; s_name : string }.

(** [attendance (student_id INTEGER, date_index INTEGER,
                 status INTEGER DEFAULT 0,
                 PRIMARY KEY (student_id, date_index),
                 FOREIGN KEY(student_id) REFERENCES students(id))].
    The two key columns hold whatever the statements put there after
    numeric affinity; [status] only ever receives the integers the
    statements write. *)
Record attendance_row : Type :=
  AttendanceRow { student_id : Sqlite.value; date_index : Sqlite.value; status : Z }.

Record t : Type := Make {
  students : list student_row;
  attendance : list attendance_row;
  (** largest rowid ever given out for [students] (AUTOINCREMENT) *)
  sqlite_sequence : Z;
  (** [PRAGMA foreign_keys] of the connection; the source never sets it,
      so it is whatever the driver opens the connection with *)
  foreign_keys : bool
}.

(** A new database file after the [CREATE TABLE IF NOT EXISTS] script, as
    the driver opens it (foreign keys enforced). *)
Definition fresh : t :=
  {| students := []; attendance := []; sqlite_sequence := 0; foreign_keys := true |}.

(** [SELECT count( * ) as count FROM students] *)
Definition count_students (d : t) : Z := Z.of_nat (length (students d)).

Definition max_rowid (l : list student_row) : Z :=
  fold_right (fun s m => Z.max (s_id s) m) 0 l.

(** [INSERT INTO students (name) VALUES (?)]; also returns
    [lastInsertRowid]. *)
Definition insertStudent (name : string) (d : t) : t * Z :=
  let rowid := Z.max (sqlite_sequence d) (max_rowid (students d)) + 1 in
  ({| students := students d ++ [StudentRow rowid name];
      attendance := attendance d;
      sqlite_sequence := rowid;
      foreign_keys := foreign_keys d |}, rowid).

(** [student_id = ? AND date_index = ?] *)
Definition key_matches (sid di : Sqlite.value) (r : attendance_row) : bool :=
  Sqlite.eq (student_id r) sid && Sqlite.eq (date_index r) di.

(** The foreign key holds for a child value: NULL, or some parent id. *)
Definition references_student (d : t) (v : Sqlite.value) : bool :=
  match v with
  | Sqlite.NULL => true
  | _ => existsb (fun s => Sqlite.eq (Sqlite.INTEGER (s_id s)) v) (students d)
  end.

(** The row insertion itself, on values that already went through the
    column affinity: [None] when the primary key or the foreign key
    refuses the row (the statement throws and changes nothing). *)
Definition insert_row (sid di : Sqlite.value) (st : Z) (d : t) : option t :=
  if existsb (key_matches sid di) (attendance d) then None
  else if foreign_keys d && negb (references_student d sid) then None
  else Some {| students := students d;
               attendance := attendance d ++ [AttendanceRow sid di st];
               sqlite_sequence := sqlite_sequence d;
               foreign_keys := foreign_keys d |}.

(** [INSERT INTO attendance (student_id, date_index, status)
     VALUES (?, ?, st)] with [st] the literal of the statement. *)
Definition insertAttendance (studentId dateIndex : JS.value) (st : Z) (d : t)
  : option t :=
  sid ← Sqlite.param studentId;
  di ← Sqlite.param dateIndex;
  insert_row sid di st d.

(** [SELECT status FROM attendance WHERE student_id = ? AND date_index = ?]
    with [.get]: the outer [None] is a throw, the inner one is
    [undefined] (no row). *)
Definition selectStatus (studentId dateIndex : JS.value) (d : t)
  : option (option Z) :=
  sid ← Sqlite.param studentId;
  di ← Sqlite.param dateIndex;
  Some (status <$> List.find (key_matches sid di) (attendance d)).

Definition set_status (newStatus : Z) (sid di : Sqlite.value)
    (r : attendance_row) : attendance_row :=
  if key_matches sid di r
  then AttendanceRow (student_id r) (date_index r) newStatus
  else r.

(** [UPDATE attendance SET status = ? WHERE student_id = ? AND date_index = ?] *)
Definition updateStatus (newStatus : Z) (studentId dateIndex : JS.value) (d : t)
  : option t :=
  sid ← Sqlite.param studentId;
  di ← Sqlite.param dateIndex;
  Some {| students := students d;
          attendance := map (set_status newStatus sid di) (attendance d);
          sqlite_sequence := sqlite_sequence d;
          foreign_keys := foreign_keys d |}.

(** A [forEach] or [for] loop of statements that may throw: the first
    throw ends the loop. *)
Fixpoint for_each {A : Type} (body : A -> t -> option t) (l : list A) (d : t)
  : option t :=
  match l with
  | [] => Some d
  | x :: r => match body x d with
              | Some d' => for_each body r d'
              | None => None
              end
  end.

(** The body of the seed transaction. *)
Definition seed_student (name : string) (d : t) : option t :=
  let '(d1, studentId) := insertStudent name d in
  for_each (fun i => insertAttendance (JS.int studentId) (JS.int i) 0)
           (seqZ 0 N) d1.

Definition seed_all (d : t) : option t := for_each seed_student INITIAL_NAMES d.

(** [db.transaction(fn)()]: commit what [fn] did, or roll everything back
    when it throws (and throw again). *)
Definition transaction (fn : t -> option t) (d : t) : t * bool :=
  match fn d with
  | Some d' => (d', true)
  | None => (d, false)
  end.

Inductive startup_outcome : Type :=
| Seeded      (* the transaction committed *)
| NotEmpty    (* [studentCount.count !== 0]: nothing is run *)
| Threw.      (* the transaction threw and was rolled back *)

(** "Seed Data if empty", run once when the module is loaded. *)
Definition seed_if_empty (d : t) : t * startup_outcome :=
  if count_students d =? 0 then
    match transaction seed_all d with
    | (d', true) => (d', Seeded)
    | (d', false) => (d', Threw)
    end
  else (d, NotEmpty).

End Db.

(** ** The shape served to, and held by, a viewer *)

(** [interface Student { id: string; name: string; attendance: number[] }] *)
Record Student : Type := mkStudent {
  id : string;
  name : string;
  attendance : list Z
}.

(** Stable insertion sort by a "not after" test: the order [ORDER BY] and
    [Array.prototype.sort] give when the test is a total preorder. *)
Fixpoint insert_by {A : Type} (le : A -> A -> bool) (x : A) (l : list A) : list A :=
  match l with
  | [] => [x]
  | y :: r => if le x y then x :: l else y :: insert_by le x r
  end.

Definition sort_by {A : Type} (le : A -> A -> bool) (l : list A) : list A :=
  fold_right (insert_by le) [] l.

(** Every element of [l] is "not after" the next one. *)
Fixpoint ordered {A : Type} (le : A -> A -> bool) (l : list A) : Prop :=
  match l with
  | x :: (y :: _) as r => le x y = true /\ ordered le r
  | _ => True
  end.

(** ** The server: [GET /api/students] and [POST /api/attendance/toggle] *)

Module Server.

(** [ORDER BY name ASC] on a TEXT column without a COLLATE clause: the
    BINARY collation, a comparison of the bytes ([memcmp], the shorter
    string first on a tie). *)
Definition order_by_name (l : list Db.student_row) : list Db.student_row :=
  sort_by (fun a b => String.leb (Db.s_name a) (Db.s_name b)) l.

(** [a.student_id === s.id], with [s.id] an integer: a number of the same
    value; a string or [null] is never strictly equal to a number. *)
Definition student_id_is (sid : Z) (a : Db.attendance_row) : bool :=
  match Db.student_id a with
  | Sqlite.INTEGER z => z =? sid
  | Sqlite.REAL q => Qeq_bool q (inject_Z sid)
  | _ => false
  end.

(** The element a property key designates when the key is an array index:
    a non-negative integer (or the string that writes one canonically).
    Any other key (negative, fractional, [null], other text) names an
    ordinary property of the array object. *)
Definition array_index (v : Sqlite.value) : option nat :=
  match v with
  | Sqlite.INTEGER z => if 0 <=? z then Some (Z.to_nat z) else None
  | Sqlite.REAL q =>
      let r := Qred q in
      if Pos.eqb (Qden r) 1 && (0 <=? Qnum r) then Some (Z.to_nat (Qnum r)) else None
  | Sqlite.TEXT s =>
      match Sqlite.digits (list_ascii_of_string s) 0 0%nat with
      | (z, _, []) => if String.eqb (JS.String_of_int z) s then Some (Z.to_nat z) else None
      | _ => None
      end
  | Sqlite.NULL => None
  end.

(** [if (a.date_index < MEETING_DATES.length)
      studentAttendance[a.date_index] = a.status;]
    on the elements of the array.  For an array index [i] the test is
    [i < N] and the assignment replaces element [i], which exists.  For
    any other key the assignment, when the test lets it through, adds a
    named property: no element changes and [res.json] does not serialise
    it. *)
Definition mark (arr : list Z) (a : Db.attendance_row) : list Z :=
  match array_index (Db.date_index a) with
  | Some i => if Z.of_nat i <? N then <[i := Db.status a]> arr else arr
  | None => arr
  end.

(** The callback of [students.map]: a new array of N zeros, then the rows
    of this student in table order. *)
Definition to_frontend (att : list Db.attendance_row) (s : Db.student_row) : Student :=
  {| id := JS.String_of_int (Db.s_id s);
     name := Db.s_name s;
     attendance :=
       fold_left mark (List.filter (student_id_is (Db.s_id s)) att)
                 (replicate (length MEETING_DATES) 0) |}.

(** [app.get('/api/students')]: the body of the 200 response. *)
Definition listSnapshot (d : Db.t) : list Student :=
  map (to_frontend (Db.attendance d)) (order_by_name (Db.students d)).

(** WebSocket connections held by [wss.clients]. *)
Inductive readyState : Type := CONNECTING | OPEN | CLOSING | CLOSED.

Record client : Type := Client { conn : nat; ready : readyState }.

Definition is_open (c : client) : bool :=
  match ready c with OPEN => true | _ => false end.

(** [{ type: 'UPDATE_ATTENDANCE', payload: { studentId, dateIndex, status } }] *)
Record update_attendance : Type := UPDATE_ATTENDANCE {
  studentId : JS.value;
  dateIndex : JS.value;
  status : Z
}.

(** [wss.clients.forEach(client => { if (client.readyState ===
    WebSocket.OPEN) client.send(broadcastData) })]: the sends performed,
    as (connection, message) pairs in iteration order. *)
Definition broadcast (clients : list client) (m : update_attendance)
  : list (nat * update_attendance) :=
  map (fun c => (conn c, m)) (List.filter is_open clients).

Inductive response : Type :=
| BadRequest          (* 400 { error: 'Missing studentId or dateIndex' } *)
| DatabaseError       (* 500 { error: 'Database error' } *)
| Success (newStatus : Z).  (* 200 { success: true, newStatus } *)

(** [!studentId || dateIndex === undefined] *)
Definition missing (studentId dateIndex : JS.value) : bool :=
  negb (JS.truthy studentId) || JS.is_undefined dateIndex.

Record result : Type := Result {
  db : Db.t;
  reply : response;
  sent : list (nat * update_attendance)
}.

(** The [try] block of the toggle handler; every throw lands in the
    [catch], which answers 500.  A statement that throws has changed
    nothing. *)
Definition toggle_try (d : Db.t) (clients : list client)
    (studentId dateIndex : JS.value) : result :=
  match Db.selectStatus studentId dateIndex d with
  | None => Result d DatabaseError []
  | Some (Some current) =>
      let newStatus := if current =? 1 then 0 else 1 in
      match Db.updateStatus newStatus studentId dateIndex d with
      | None => Result d DatabaseError []
      | Some d' =>
          Result d' (Success newStatus)
                 (broadcast clients (UPDATE_ATTENDANCE studentId dateIndex newStatus))
      end
  | Some None =>
      let newStatus := 1 in
      match Db.insertAttendance studentId dateIndex 1 d with
      | None => Result d DatabaseError []
      | Some d' =>
          Result d' (Success newStatus)
                 (broadcast clients (UPDATE_ATTENDANCE studentId dateIndex newStatus))
      end
  end.

(** [app.post('/api/attendance/toggle')] on a body
    [{ studentId, dateIndex }]. *)
Definition toggle (d : Db.t) (clients : list client)
    (studentId dateIndex : JS.value) : result :=
  if missing studentId dateIndex then Result d BadRequest []
  else toggle_try d clients studentId dateIndex.

End Server.

(** ** The viewer: the state of [App] that the data handlers touch *)

Module Viewer.

(** Rows as the hosted store returns them (typed integer columns). *)
Record student_record : Type := StudentRecord { s_id : Z; s_name : string }.

Record attendance_record : Type :=
  AttendanceRecord { student_id : Z; date_index : Z; status : Z }.

(** How [fetchStudents] settles: the first query fails (the second is not
    issued), the second query fails, or both return their rows. *)
Inductive fetched : Type :=
| StudentsError
| AttendanceError (studentsData : list student_record)
| Loaded (studentsData : list student_record)
         (attendanceData : list attendance_record).

(** [payload.new] of a realtime change: the new row, or nothing usable
    (absent, or an object without [student_id], as for a delete). *)
Inductive new_record : Type :=
| NewRow (student_id date_index status : Z)
| NoRow.

Inductive channel_status : Type :=
| SUBSCRIBED | TIMED_OUT | CLOSED | CHANNEL_ERROR.

Record state : Type := State {
  students : list Student;
  loading : bool;
  isConnected : bool;
  error : option string;
  (** ghost: how many times [fetchStudents] has been called *)
  fetch_calls : nat
}.

(** [arr[i] = v] guarded by [i < bound], on the elements of [arr]: an
    index from 0 replaces the element (the callers have
    [bound <= arr.length]); a negative [i] passes the test and names an
    ordinary property, no element changes. *)
Definition guarded_set (bound : Z) (arr : list Z) (i v : Z) : list Z :=
  if i <? bound then
    if 0 <=? i then <[Z.to_nat i := v]> arr else arr
  else arr.

Section WithLocale.

(** [a.localeCompare(b, 'ko')], the collation of the JavaScript
    runtime: negative, zero or positive. *)
Variable localeCompare : string -> string -> Z.

(** [list.sort((a, b) => a.name.localeCompare(b.name, 'ko'))] *)
Definition sort_by_name (l : list Student) : list Student :=
  sort_by (fun a b => localeCompare (name a) (name b) <=? 0) l.

(** "3. Merge Data": the callback of [studentsData.map]. *)
Definition merge (attendanceData : list attendance_record) (s : student_record)
  : Student :=
  {| id := JS.String_of_int (s_id s);
     name := s_name s;
     attendance :=
       fold_left (fun arr a => guarded_set N arr (date_index a) (status a))
                 (List.filter (fun a => student_id a =? s_id s) attendanceData)
                 (replicate (length MEETING_DATES) 0) |}.

(** "Fallback to local data if API fails". *)
Definition initialList : list Student :=
  sort_by_name
    (imap (fun index name =>
             {| id := JS.String_of_int (Z.of_nat index + 1);
                name := name;
                attendance := replicate (length MEETING_DATES) 0 |})
          INITIAL_NAMES).

(** The state once [fetchStudents] has settled: [try], [catch] and
    [finally] in turn.  Nothing here calls [fetchStudents] again or
    arms a timer. *)
Definition fetchStudents_settled (o : fetched) (st : state) : state :=
  match o with
  | Loaded studentsData attendanceData =>
      {| students := sort_by_name (map (merge attendanceData) studentsData);
         loading := false;
         isConnected := true;
         error := None;
         fetch_calls := fetch_calls st |}
  | StudentsError | AttendanceError _ =>
      {| students := initialList;
         loading := false;
         isConnected := false;
         error := Some "데이터 로딩 실패. Supabase 설정을 확인해주세요.";
         fetch_calls := fetch_calls st |}
  end.

End WithLocale.

(** The callback of the realtime subscription, on one student of
    [prevStudents]. *)
Definition apply_change (student_id date_index status : Z) (student : Student)
  : Student :=
  if String.eqb (id student) (JS.String_of_int student_id) then
    {| id := id student;
       name := name student;
       attendance :=
         guarded_set (Z.of_nat (length (attendance student)))
                     (attendance student) date_index status |}
  else student.

(** [(payload) => { ... setStudents(prev => prev.map(...)) ... }] *)
Definition on_postgres_changes (p : new_record) (st : state) : state :=
  match p with
  | NewRow student_id date_index status =>
      {| students := map (apply_change student_id date_index status) (students st);
         loading := loading st;
         isConnected := isConnected st;
         error := error st;
         fetch_calls := fetch_calls st |}
  | NoRow => st
  end.

(** The callback of [.subscribe]. *)
Definition on_subscribe_status (s : channel_status) (st : state) : state :=
  match s with
  | SUBSCRIBED =>
      {| students := students st; loading := loading st; isConnected := true;
         error := error st; fetch_calls := fetch_calls st |}
  | CLOSED | CHANNEL_ERROR =>
      {| students := students st; loading := loading st; isConnected := false;
         error := error st; fetch_calls := fetch_calls st |}
  | TIMED_OUT => st
  end.

(** The fetch did not return both tables. *)
Definition failed (o : fetched) : bool :=
  match o with
  | Loaded _ _ => false
  | StudentsError | AttendanceError _ => true
  end.

(** A collation to run the viewer with: the comparison of the bytes. *)
Definition byte_compare (a b : string) : Z :=
  match String.compare a b with
  | Lt => -1
  | Eq => 0
  | Gt => 1
  end.

(** The component on mount: the initial [useState] values, and the
    effect with an empty dependency list has called [fetchStudents]
    once. *)
Definition mounted : state :=
  {| students := []; loading := true; isConnected := false; error := None;
     fetch_calls := 1 |}.

(** What reaches the data handlers after the mount. *)
Inductive event : Type :=
| Settled (o : fetched)
| Change (p : new_record)
| Status (s : channel_status).

Definition handle (localeCompare : string -> string -> Z) (st : state) (e : event)
  : state :=
  match e with
  | Settled o => fetchStudents_settled localeCompare o st
  | Change p => on_postgres_changes p st
  | Status s => on_subscribe_status s st
  end.

Definition run (localeCompare : string -> string -> Z) (st : state)
    (es : list event) : state :=
  fold_left (handle localeCompare) es st.

End Viewer.

(** ** Predicates on the store used by the statements *)

Module Store.

Definition Q_same (p q : Q) : bool :=
  (Qnum p =? Qnum q) && Pos.eqb (Qden p) (Qden q).

Definition same (a b : Sqlite.value) : bool :=
  match a, b with
  | Sqlite.NULL, Sqlite.NULL => true
  | Sqlite.INTEGER x, Sqlite.INTEGER y => x =? y
  | Sqlite.REAL p, Sqlite.REAL q => Q_same p q
  | Sqlite.TEXT s, Sqlite.TEXT t => String.eqb s t
  | _, _ => false
  end.

(** A value as an INTEGER column keeps it: affinity has nothing left to
    convert. *)
Definition normal (v : Sqlite.value) : bool := same (Sqlite.apply_affinity v) v.

Definition normal_row (r : Db.attendance_row) : bool :=
  normal (Db.student_id r) && normal (Db.date_index r).

(** The primary key: no two rows with equal (student_id, date_index). *)
Fixpoint unique_keys (l : list Db.attendance_row) : bool :=
  match l with
  | [] => true
  | r :: t =>
      negb (existsb (Db.key_matches (Db.student_id r) (Db.date_index r)) t)
      && unique_keys t
  end.

Definition binary_row (r : Db.attendance_row) : bool :=
  (Db.status r =? 0) || (Db.status r =? 1).

(** What the engine and the statements of the server maintain. *)
Definition wf (d : Db.t) : bool :=
  forallb normal_row (Db.attendance d)
  && unique_keys (Db.attendance d)
  && forallb binary_row (Db.attendance d).

(** Every row names a participant (or NULL): what the foreign key
    maintains while it is enforced. *)
Definition fk_holds (d : Db.t) : bool :=
  forallb (fun r => Db.references_student d (Db.student_id r)) (Db.attendance d).

(** The number of rows for the pair (participant [s], date index [i]). *)
Definition marks (d : Db.t) (s i : Z) : nat :=
  length (List.filter (Db.key_matches (Sqlite.INTEGER s) (Sqlite.INTEGER i))
                      (Db.attendance d)).

(** Exactly one mark for every participant and every index below N. *)
Definition complete (d : Db.t) : bool :=
  forallb (fun s => forallb (fun i => Nat.eqb (marks d (Db.s_id s) i) 1) (seqZ 0 N))
          (Db.students d).

(** From [d] to [d'] the number of marks of a pair changes, if at all,
    from none to one. *)
Definition only_new_pairs (d d' : Db.t) : Prop :=
  forall s i : Z,
    marks d' s i = marks d s i \/ (marks d s i = 0%nat /\ marks d' s i = 1%nat).

Definition in_range (v : Sqlite.value) : bool :=
  match v with
  | Sqlite.INTEGER i => (0 <=? i) && (i <? N)
  | _ => false
  end.

(** No mark for a date index outside 0 .. N-1. *)
Definition no_stray (d : Db.t) : bool :=
  forallb (fun r => in_range (Db.date_index r)) (Db.attendance d).

(** The request names the participant with rowid [s]. *)
Definition names_student (studentId : JS.value) (s : Z) : Prop :=
  Sqlite.param studentId = Some (Sqlite.INTEGER s).

(** The request names the date index [k]. *)
Definition names_index (dateIndex : JS.value) (k : Z) : Prop :=
  Sqlite.param dateIndex = Some (Sqlite.INTEGER k).


(** The mark the store holds for a request's pair, a missing row reading
    as absent. *)
Definition current (d : Db.t) (studentId dateIndex : JS.value) : Z :=
  match Db.selectStatus studentId dateIndex d with
  | Some (Some v) => v
  | _ => 0
  end.

(** The row designates element [k] of the array. *)
Definition index_is (k : nat) (r : Db.attendance_row) : bool :=
  match Server.array_index (Db.date_index r) with
  | Some i => Nat.eqb i k
  | None => false
  end.

(** The row changes an element of the array the snapshot builds. *)
Definition shown (r : Db.attendance_row) : bool :=
  match Server.array_index (Db.date_index r) with
  | Some i => Z.of_nat i <? N
  | None => false
  end.

(** The rows the snapshot attributes to participant [s] and element [k]
    of the array. *)
Definition rows_for (d : Db.t) (s : Z) (k : nat) : list Db.attendance_row :=
  List.filter (fun r => Server.student_id_is s r && index_is k r) (Db.attendance d).

(** The N absent marks of participant [s], as seeding writes them. *)
Definition absent_marks (s : Z) : list Db.attendance_row :=
  map (fun i => Db.AttendanceRow (Sqlite.INTEGER s) (Sqlite.INTEGER i) 0) (seqZ 0 N).


(** The store after the first start of the server on a new file. *)
Definition seeded : Db.t := fst (Db.seed_if_empty Db.fresh).

End Store.

(** What a toggle does, case by case: the paths through the handler. *)
Inductive toggle_case (d : Db.t) (clients : list Server.client)
    (studentId dateIndex : JS.value) : Server.result -> Prop :=
| toggle_missing :
    Server.missing studentId dateIndex = true ->
    toggle_case d clients studentId dateIndex (Server.Result d Server.BadRequest [])
| toggle_unbound :
    Server.missing studentId dateIndex = false ->
    (Sqlite.param studentId = None \/ Sqlite.param dateIndex = None) ->
    toggle_case d clients studentId dateIndex (Server.Result d Server.DatabaseError [])
| toggle_update (a b : Sqlite.value) (r : Db.attendance_row) (d' : Db.t) :
    Server.missing studentId dateIndex = false ->
    Sqlite.param studentId = Some a -> Sqlite.param dateIndex = Some b ->
    List.find (Db.key_matches a b) (Db.attendance d) = Some r ->
    let newStatus := if Db.status r =? 1 then 0 else 1 in
    d' = Db.Make (Db.students d)
                 (map (Db.set_status newStatus a b) (Db.attendance d))
                 (Db.sqlite_sequence d) (Db.foreign_keys d) ->
    toggle_case d clients studentId dateIndex
      (Server.Result d' (Server.Success newStatus)
         (Server.broadcast clients
            (Server.UPDATE_ATTENDANCE studentId dateIndex newStatus)))
| toggle_insert (a b : Sqlite.value) (d' : Db.t) :
    Server.missing studentId dateIndex = false ->
    Sqlite.param studentId = Some a -> Sqlite.param dateIndex = Some b ->
    List.find (Db.key_matches a b) (Db.attendance d) = None ->
    Db.insert_row a b 1 d = Some d' ->
    toggle_case d clients studentId dateIndex
      (Server.Result d' (Server.Success 1)
         (Server.broadcast clients (Server.UPDATE_ATTENDANCE studentId dateIndex 1)))
| toggle_refused (a b : Sqlite.value) :
    Server.missing studentId dateIndex = false ->
    Sqlite.param studentId = Some a -> Sqlite.param dateIndex = Some b ->
    List.find (Db.key_matches a b) (Db.attendance d) = None ->
    Db.insert_row a b 1 d = None ->
    toggle_case d clients studentId dateIndex (Server.Result d Server.DatabaseError []).

(** ** Further definitions used by the statements *)

From Stdlib Require Import DecimalPos.

(** The stores the server can be in: a new database file is seeded when
    the module loads; from then on requests toggle marks, and the server
    may be started again on the same file. *)
Inductive reachable : Db.t -> Prop :=
| reach_start : reachable (fst (Db.seed_if_empty Db.fresh))
| reach_toggle (d : Db.t) (clients : list Server.client)
    (studentId dateIndex : JS.value) :
    reachable d ->
    reachable (Server.db (Server.toggle d clients studentId dateIndex))
| reach_restart (d : Db.t) :
    reachable d -> reachable (fst (Db.seed_if_empty d)).

(** Every array of the viewer's roster has exactly N marks. *)
Definition roster_shaped (st : Viewer.state) : Prop :=
  Forall (fun x => Z.of_nat (length (attendance x)) = N) (Viewer.students st).

(** The attendance records the viewer's merge attributes to participant
    [s] and element [k]. *)
Definition records_for (attendanceData : list Viewer.attendance_record) (s : Z) (k : nat)
  : list Viewer.attendance_record :=
  List.filter (fun a => (Viewer.student_id a =? s)
                        && (Viewer.date_index a =? Z.of_nat k)) attendanceData.

(** ** The rotating header text ([TextRotate]) *)

Module TextRotate.

(** The updater given to [setCurrentTextIndex] by [next]:
    [prev === texts.length - 1 ? (loop ? 0 : prev) : prev + 1]. *)
Definition next (texts_length : Z) (loop : bool) (prev : Z) : Z :=
  if prev =? texts_length - 1 then (if loop then 0 else prev) else prev + 1.

(** [staggerFrom?: "first" | "last" | "center" | number] *)
Inductive staggerFrom : Type := first | last | center | number (n : Z).

Section Delay.

(** A delay, and [n * staggerDuration] for an integer [n] (a product of
    doubles, left to the runtime). *)
Variable delay : Type.
Variable times_staggerDuration : Z -> delay.

(** [getStaggerDelay(index, totalChars)]; [Math.floor(total / 2)] of an
    integer is the floored quotient. *)
Definition getStaggerDelay (from : staggerFrom) (index totalChars : Z) : delay :=
  let total := totalChars in
  match from with
  | first => times_staggerDuration index
  | last => times_staggerDuration (total - 1 - index)
  | center =>
      let center := total / 2 in
      times_staggerDuration (Z.abs (center - index))
  | number _ => times_staggerDuration index
  end.

End Delay.

(** [array.slice(0, wordIndex).reduce((sum, word) =>
      sum + word.characters.length, 0)], a word being its characters. *)
Definition previousCharsCount (array : list (list string)) (wordIndex : nat) : Z :=
  fold_left (fun sum word => sum + Z.of_nat (length word)) (take wordIndex array) 0.

(** [array.reduce((sum, word) => sum + word.characters.length, 0)] *)
Definition totalChars (array : list (list string)) : Z :=
  fold_left (fun sum word => sum + Z.of_nat (length word)) array 0.

(** The first arguments of the calls of [getStaggerDelay], in rendering
    order: [previousCharsCount + charIndex] for every character of every
    word of [elements]. *)
Definition stagger_indexes (array : list (list string)) : list Z :=
  concat (imap (fun wordIndex word =>
                  imap (fun charIndex _ =>
                          previousCharsCount array wordIndex + Z.of_nat charIndex)
                       word)
               array).

End TextRotate.

(** The high-water mark the next AUTOINCREMENT rowid is taken above. *)
Definition rowid_mark (d : Db.t) : Z :=
  Z.max (Db.sqlite_sequence d) (Db.max_rowid (Db.students d)).

(** ** The words of the rotating text ([elements]) and the card's count *)

(** [currentText.split(" ")] on the bytes of the text: the pieces between
    the spaces, at least one. *)
Fixpoint split_space (s : string) : list string :=
  match s with
  | EmptyString => [EmptyString]
  | String c r =>
      if Ascii.eqb c " " then EmptyString :: split_space r
      else match split_space r with
           | w :: ws => String c w :: ws
           | [] => [String c EmptyString]
           end
  end.

(** The [elements] of [TextRotate] for [splitBy === "characters"]:
    [{ characters: splitIntoCharacters(word),
       needsSpace: i !== text.length - 1 }] for every word.
    [splitIntoCharacters] (the runtime's grapheme segmenter, or
    [Array.from]) is a parameter. *)
Definition elements (splitIntoCharacters : string -> list string)
    (currentText : string) : list (list string * bool) :=
  let text := split_space currentText in
  imap (fun i word =>
          (splitIntoCharacters word,
           negb (Z.of_nat i =? Z.of_nat (length text) - 1)))
       text.

(** What the spans of [elements] show, read in order: the characters of a
    word, then a space when [needsSpace]. *)
Definition rendered (els : list (list string * bool)) : string :=
  fold_right
    (fun (el : list string * bool) (acc : string) =>
       (fold_right String.append "" (fst el)
        ++ (if snd el then " " else "") ++ acc)%string)
    "" els.

(** A segmenter to run [elements] with: one character per byte. *)
Definition bytes_of (word : string) : list string :=
  map (fun c => String c EmptyString) (list_ascii_of_string word).

(** [student.attendance.filter(v => v === 1).length] of [StudentCard] and
    [StatisticsView]. *)
Definition attendedCount (attendance : list Z) : Z :=
  Z.of_nat (length (List.filter (fun v => v =? 1) attendance)).

(** * Properties *)

(** ** Equality of SQLite values *)

Section SqliteEq.
Import Sqlite.

Lemma Qeq_bool_sym p q : Qeq_bool p q = Qeq_bool q p.
Proof.
  destruct (Qeq_bool p q) eqn:E1, (Qeq_bool q p) eqn:E2; trivial.
  - apply Qeq_bool_iff in E1. symmetry in E1. apply Qeq_bool_iff in E1. congruence.
  - apply Qeq_bool_iff in E2. symmetry in E2. apply Qeq_bool_iff in E2. congruence.
Qed.

Lemma Qeq_bool_trans p q r :
  Qeq_bool p q = true -> Qeq_bool q r = true -> Qeq_bool p r = true.
Proof.
  rewrite !Qeq_bool_iff. intros H1 H2. now rewrite H1.
Qed.

Lemma eq_sym a b : eq a b = eq b a.
Proof.
  destruct a, b; simpl; trivial; try apply Qeq_bool_sym.
  apply String.eqb_sym.
Qed.

Lemma eq_trans a b c : eq a b = true -> eq b c = true -> eq a c = true.
Proof.
  destruct a, b, c; simpl; try discriminate; try apply Qeq_bool_trans.
  rewrite !String.eqb_eq. congruence.
Qed.

(** Two values equal to a third match the same rows. *)
Lemma eq_compat a b c : eq a b = true -> eq c a = eq c b.
Proof.
  intros H. destruct (eq c a) eqn:E1, (eq c b) eqn:E2; trivial.
  - rewrite (eq_trans _ _ _ E1 H) in E2. discriminate.
  - rewrite eq_sym in H. rewrite (eq_trans _ _ _ E2 H) in E1. discriminate.
Qed.

Lemma eq_INTEGER x y : eq (INTEGER x) (INTEGER y) = (x =? y).
Proof.
  simpl. destruct (x =? y) eqn:E.
  - apply Z.eqb_eq in E. subst. apply Qeq_bool_iff. reflexivity.
  - destruct (Qeq_bool (inject_Z x) (inject_Z y)) eqn:E'; trivial.
    apply Qeq_bool_iff in E'. unfold Qeq in E'. simpl in E'.
    apply Z.eqb_neq in E. lia.
Qed.
End SqliteEq.


(** ** Sorting *)

Section Sorting.
Context {A : Type} (le : A -> A -> bool).

Lemma insert_by_perm (x : A) (l : list A) : Permutation (insert_by le x l) (x :: l).
Proof.
  induction l as [|y r IH]; simpl; [reflexivity|].
  destruct (le x y); [reflexivity|].
  rewrite IH. apply perm_swap.
Qed.

Lemma sort_by_perm (l : list A) : Permutation (sort_by le l) l.
Proof.
  induction l as [|x r IH]; simpl; [reflexivity|].
  rewrite insert_by_perm. now rewrite IH.
Qed.


Hypothesis le_total : forall a b, le a b = true \/ le b a = true.

Lemma insert_by_ordered (x : A) (l : list A) :
  ordered le l -> ordered le (insert_by le x l).
Proof.
  induction l as [|y r IH]; simpl; [trivial|].
  intros Hl. destruct (le x y) eqn:E.
  - simpl. auto.
  - assert (Hyx : le y x = true) by (destruct (le_total x y); congruence).
    destruct r as [|z r']; simpl in *; [auto|].
    destruct Hl as [Hyz Hr]. specialize (IH Hr).
    destruct (le x z) eqn:E'; simpl in *; auto.
Qed.

Lemma sort_by_ordered (l : list A) : ordered le (sort_by le l).
Proof.
  induction l as [|x r IH]; simpl; [trivial|].
  now apply insert_by_ordered.
Qed.
End Sorting.
(** ** The toggle handler: its guard and its broadcast *)

Lemma truthy_false_inv (v : JS.value) :
  JS.truthy v = false <->
  v = JS.Undefined \/ v = JS.Null \/ v = JS.Bool false
  \/ (exists q, v = JS.Num q /\ (q == 0)%Q) \/ v = JS.Str "".
Proof.
  split.
  - destruct v as [| |b|q|s]; simpl; intros H; auto.
    + subst. auto.
    + apply negb_false_iff, Qeq_bool_iff in H. right; right; right; left. eauto.
    + apply negb_false_iff, String.eqb_eq in H. subst. auto 6.
  - intros [->|[->|[->|[(q & -> & H)| ->]]]]; simpl; trivial.
    apply negb_false_iff, Qeq_bool_iff. exact H.
Qed.

Lemma is_undefined_true_inv (v : JS.value) :
  JS.is_undefined v = true <-> v = JS.Undefined.
Proof. destruct v; simpl; split; congruence. Qed.

Lemma toggle_try_reply (d : Db.t) (clients : list Server.client)
    (studentId dateIndex : JS.value) :
  Server.reply (Server.toggle_try d clients studentId dateIndex) <> Server.BadRequest.
Proof.
  unfold Server.toggle_try.
  destruct (Db.selectStatus studentId dateIndex d) as [[current|]|]; simpl.
  - destruct (Db.updateStatus _ _ _ _); simpl; discriminate.
  - destruct (Db.insertAttendance _ _ _ _); simpl; discriminate.
  - discriminate.
Qed.

(** C10: the guard of the toggle handler rejects exactly a falsy
    [studentId] (absent, [null], [false], zero, the empty string) or an
    absent [dateIndex], answering 400 with the store untouched and nothing
    sent; every other request, whatever the value or type of [dateIndex]
    (zero, negative, fractional, [null]), goes on to the database
    statements. *)
Theorem toggle_parameter_check (d : Db.t) (clients : list Server.client)
    (studentId dateIndex : JS.value) :
  let r := Server.toggle d clients studentId dateIndex in
  (Server.missing studentId dateIndex = true <->
     (studentId = JS.Undefined \/ studentId = JS.Null \/ studentId = JS.Bool false
      \/ (exists q, studentId = JS.Num q /\ (q == 0)%Q) \/ studentId = JS.Str "")
     \/ dateIndex = JS.Undefined)
  /\ (Server.missing studentId dateIndex = true ->
        r = Server.Result d Server.BadRequest [])
  /\ (Server.missing studentId dateIndex = false ->
        r = Server.toggle_try d clients studentId dateIndex
        /\ Server.reply r <> Server.BadRequest)
  /\ Server.missing (JS.int 0) dateIndex = true
  /\ Server.missing (JS.Str "") dateIndex = true
  /\ (JS.truthy studentId = true ->
        Server.missing studentId (JS.int 0) = false
        /\ Server.missing studentId (JS.int (-1)) = false
        /\ Server.missing studentId (JS.Num (3 # 2)) = false
        /\ Server.missing studentId JS.Null = false).
Proof.
  cbv zeta. unfold Server.toggle.
  split; [|split; [|split; [|split; [|split]]]].
  - unfold Server.missing. rewrite orb_true_iff, negb_true_iff.
    rewrite truthy_false_inv, is_undefined_true_inv. reflexivity.
  - intros ->. reflexivity.
  - intros ->. split; [reflexivity|apply toggle_try_reply].
  - reflexivity.
  - reflexivity.
  - intros H. unfold Server.missing. rewrite H. repeat split.
Qed.

Lemma toggle_parameter_check_witness :
  Server.toggle Store.seeded [] (JS.int 0) (JS.int 3)
  = Server.Result Store.seeded Server.BadRequest []
  /\ Server.toggle Store.seeded [] (JS.int 1) JS.Null
     = Server.toggle_try Store.seeded [] (JS.int 1) JS.Null.
Proof.
  split.
  - apply (toggle_parameter_check Store.seeded [] (JS.int 0) (JS.int 3)).
    reflexivity.
  - apply (toggle_parameter_check Store.seeded [] (JS.int 1) JS.Null).
    reflexivity.
Defined.

Lemma toggle_sent (d : Db.t) (clients : list Server.client)
    (studentId dateIndex : JS.value) :
  let r := Server.toggle d clients studentId dateIndex in
  match Server.reply r with
  | Server.Success newStatus =>
      Server.sent r
      = Server.broadcast clients (Server.UPDATE_ATTENDANCE studentId dateIndex newStatus)
  | _ => Server.sent r = [] /\ Server.db r = d
  end.
Proof.
  cbv zeta. unfold Server.toggle, Server.toggle_try.
  destruct (Server.missing studentId dateIndex); simpl; [auto|].
  destruct (Db.selectStatus studentId dateIndex d) as [[current|]|]; simpl; auto.
  - destruct (Db.updateStatus _ _ _ _); simpl; auto.
  - destruct (Db.insertAttendance _ _ _ _); simpl; auto.
Qed.

(** C7: a toggle that answers success sends one event
    [UPDATE_ATTENDANCE { studentId, dateIndex, status }], with [status]
    the [newStatus] of the answer, to every connection of [wss.clients]
    that is open (the caller's own included, being one of them) and to no
    other; a toggle that answers an error sends nothing. *)
Theorem broadcast_after_toggle (d : Db.t) (clients : list Server.client)
    (studentId dateIndex : JS.value) :
  let r := Server.toggle d clients studentId dateIndex in
  match Server.reply r with
  | Server.Success newStatus =>
      let event := Server.UPDATE_ATTENDANCE studentId dateIndex newStatus in
      Server.sent r
      = map (fun c => (Server.conn c, event)) (List.filter Server.is_open clients)
      /\ (forall c, In c clients -> Server.ready c = Server.OPEN ->
                    In (Server.conn c, event) (Server.sent r))
      /\ (forall n m, In (n, m) (Server.sent r) ->
                      m = event
                      /\ exists c, In c clients /\ Server.ready c = Server.OPEN
                                   /\ Server.conn c = n)
  | Server.BadRequest | Server.DatabaseError => Server.sent r = []
  end.
Proof.
  cbv zeta.
  pose proof (toggle_sent d clients studentId dateIndex) as H. cbv zeta in H.
  destruct (Server.reply _) as [| |newStatus]; try tauto.
  rewrite H. unfold Server.broadcast. split; [reflexivity|split].
  - intros c Hc Ho. apply in_map_iff. exists c. split; [reflexivity|].
    apply filter_In. split; [exact Hc|]. unfold Server.is_open. now rewrite Ho.
  - intros n m Hin. apply in_map_iff in Hin as (c & Heq & Hc).
    apply filter_In in Hc as [Hc Ho]. inversion Heq; subst.
    split; [reflexivity|]. exists c. repeat split; trivial.
    unfold Server.is_open in Ho. destruct (Server.ready c); congruence.
Qed.

Lemma broadcast_after_toggle_witness :
  In (7%nat, Server.UPDATE_ATTENDANCE (JS.Str "3") (JS.int 0) 1)
     (Server.sent (Server.toggle Store.seeded
                     [Server.Client 7 Server.OPEN; Server.Client 8 Server.CLOSED]
                     (JS.Str "3") (JS.int 0))).
Proof.
  pose proof (broadcast_after_toggle Store.seeded
                [Server.Client 7 Server.OPEN; Server.Client 8 Server.CLOSED]
                (JS.Str "3") (JS.int 0)) as H.
  cbv zeta in H.
  change (Server.reply _) with (Server.Success 1) in H.
  destruct H as (_ & H & _).
  apply (H (Server.Client 7 Server.OPEN)); [left; reflexivity | reflexivity].
Defined.

(** ** The snapshot *)

Section Snapshot.

Lemma mark_length (arr : list Z) (r : Db.attendance_row) :
  length (Server.mark arr r) = length arr.
Proof.
  unfold Server.mark. destruct (Server.array_index _); [|reflexivity].
  destruct (_ <? N); [apply length_insert|reflexivity].
Qed.

Lemma fold_mark_length (rows : list Db.attendance_row) (arr : list Z) :
  length (fold_left Server.mark rows arr) = length arr.
Proof.
  revert arr. induction rows as [|r rows IH]; intros arr; simpl; [reflexivity|].
  rewrite IH. apply mark_length.
Qed.

Lemma mark_lookup (arr : list Z) (r : Db.attendance_row) (k : nat) :
  (k < length arr)%nat -> Z.of_nat k < N ->
  Server.mark arr r !! k = if Store.index_is k r then Some (Db.status r) else arr !! k.
Proof.
  intros Hk HN. unfold Server.mark, Store.index_is.
  destruct (Server.array_index _) as [i|]; [|reflexivity].
  destruct (Nat.eqb_spec i k) as [->|Hne].
  - apply Z.ltb_lt in HN. rewrite HN. now apply list_lookup_insert_eq.
  - destruct (_ <? N); [|reflexivity]. now apply list_lookup_insert_ne.
Qed.

Lemma fold_mark_lookup (rows : list Db.attendance_row) (arr : list Z) (k : nat) :
  (k < length arr)%nat -> Z.of_nat k < N ->
  fold_left Server.mark rows arr !! k
  = match last (List.filter (Store.index_is k) rows) with
    | Some r => Some (Db.status r)
    | None => arr !! k
    end.
Proof.
  revert arr. induction rows as [|r rows IH]; intros arr Hk HN; simpl; [reflexivity|].
  rewrite IH by (rewrite ?mark_length; assumption).
  rewrite mark_lookup by assumption.
  destruct (Store.index_is k r); [|reflexivity].
  rewrite last_cons. destruct (last _); reflexivity.
Qed.

Lemma filter_filter {A : Type} (p q : A -> bool) (l : list A) :
  List.filter q (List.filter p l) = List.filter (fun x => p x && q x) l.
Proof.
  induction l as [|x l IH]; simpl; [reflexivity|].
  destruct (p x); simpl; [destruct (q x)|]; now rewrite ?IH.
Qed.

Lemma N_length : Z.of_nat (length MEETING_DATES) = N.
Proof. reflexivity. Qed.

(** One entry of the snapshot: identity, shape and content. *)
Lemma to_frontend_spec (d : Db.t) (s : Db.student_row) :
  let e := Server.to_frontend (Db.attendance d) s in
  id e = JS.String_of_int (Db.s_id s)
  /\ name e = Db.s_name s
  /\ Z.of_nat (length (attendance e)) = N
  /\ forall k : nat, Z.of_nat k < N ->
       attendance e !! k
       = Some (match last (Store.rows_for d (Db.s_id s) k) with
               | Some r => Db.status r
               | None => 0
               end).
Proof.
  cbv zeta. unfold Server.to_frontend. cbn [id name attendance].
  split; [reflexivity|split; [reflexivity|split]].
  - rewrite fold_mark_length, length_replicate. reflexivity.
  - intros k Hk. rewrite fold_mark_lookup; [|rewrite length_replicate; unfold N in Hk; lia|assumption].
    unfold Store.rows_for. rewrite filter_filter.
    destruct (last _); [reflexivity|].
    apply lookup_replicate_2. unfold N in Hk; lia.
Qed.

End Snapshot.


(** ** Bound arguments *)

Lemma of_Q_inject_Z (z : Z) : Sqlite.of_Q (inject_Z z) = Sqlite.INTEGER z.
Proof.
  unfold Sqlite.of_Q.
  rewrite Qcanon.Qred_identity by (simpl; apply Z.gcd_1_r).
  reflexivity.
Qed.

Lemma param_int (z : Z) : Sqlite.param (JS.int z) = Some (Sqlite.INTEGER z).
Proof. unfold Sqlite.param, JS.int. simpl. now rewrite of_Q_inject_Z. Qed.

(** ** Seeding *)

Section Seeding.

Lemma insert_loop_inv (s : Z) (l : list Z) (d d' : Db.t) :
  Db.for_each (fun i => Db.insertAttendance (JS.int s) (JS.int i) 0) l d = Some d' ->
  Db.students d' = Db.students d
  /\ Db.attendance d'
     = Db.attendance d
       ++ map (fun i => Db.AttendanceRow (Sqlite.INTEGER s) (Sqlite.INTEGER i) 0) l
  /\ Db.sqlite_sequence d' = Db.sqlite_sequence d
  /\ Db.foreign_keys d' = Db.foreign_keys d.
Proof.
  revert d. induction l as [|i l IH]; intros d; simpl.
  - intros [= <-]. now rewrite app_nil_r.
  - unfold Db.insertAttendance at 1. rewrite !param_int. simpl.
    unfold Db.insert_row.
    destruct (existsb _ _); [discriminate|].
    destruct (_ && _); [discriminate|].
    intros H. apply IH in H as (H1 & H2 & H3 & H4). simpl in *.
    rewrite H1, H2, H3, H4, <- app_assoc. auto.
Qed.

Lemma seed_student_inv (name : string) (d d' : Db.t) :
  Db.seed_student name d = Some d' ->
  exists s : Z,
    Db.students d' = Db.students d ++ [Db.StudentRow s name]
    /\ Db.attendance d' = Db.attendance d ++ Store.absent_marks s
    /\ Db.foreign_keys d' = Db.foreign_keys d.
Proof.
  unfold Db.seed_student, Db.insertStudent. intros H.
  apply insert_loop_inv in H as (H1 & H2 & _ & H4). simpl in *.
  eexists. repeat split; eassumption.
Qed.

Lemma seed_all_inv (names : list string) (d d' : Db.t) :
  Db.for_each Db.seed_student names d = Some d' ->
  exists ids : list Z,
    length ids = length names
    /\ Db.students d' = Db.students d ++ zip_with Db.StudentRow ids names
    /\ Db.attendance d' = Db.attendance d ++ flat_map Store.absent_marks ids.
Proof.
  revert d. induction names as [|name names IH]; intros d; simpl.
  - intros [= <-]. exists []. now rewrite !app_nil_r.
  - destruct (Db.seed_student name d) as [d1|] eqn:E; [|discriminate].
    intros H. apply IH in H as (ids & Hlen & Hs & Ha).
    apply seed_student_inv in E as (s & Hs1 & Ha1 & _).
    exists (s :: ids). simpl. rewrite Hlen, Hs, Ha, Hs1, Ha1, <- !app_assoc.
    auto.
Qed.

End Seeding.

Lemma seed_if_empty_nonempty (d : Db.t) :
  Db.students d <> [] -> Db.seed_if_empty d = (d, Db.NotEmpty).
Proof.
  intros Hd. unfold Db.seed_if_empty, Db.count_students.
  destruct (Db.students d); [congruence|]. reflexivity.
Qed.

Lemma seed_if_empty_cases (d : Db.t) :
  match snd (Db.seed_if_empty d) with
  | Db.Seeded =>
      Db.students d = []
      /\ exists ids : list Z,
           length ids = length INITIAL_NAMES
           /\ Db.students (fst (Db.seed_if_empty d))
              = zip_with Db.StudentRow ids INITIAL_NAMES
           /\ Db.attendance (fst (Db.seed_if_empty d))
              = Db.attendance d ++ flat_map Store.absent_marks ids
  | Db.NotEmpty | Db.Threw => fst (Db.seed_if_empty d) = d
  end.
Proof.
  unfold Db.seed_if_empty, Db.count_students, Db.transaction.
  destruct (Db.students d) as [|s l] eqn:Hs; [|reflexivity].
  change (Z.of_nat (length []) =? 0) with true. cbv iota.
  destruct (Db.seed_all d) as [d'|] eqn:E; [|reflexivity].
  cbn [fst snd]. split; [reflexivity|].
  apply seed_all_inv in E as (ids & Hlen & Hst & Hatt).
  exists ids. rewrite Hst, Hs. auto.
Qed.

(** C6: seeding runs only on an empty [students] table and is all or
    nothing: it either commits one participant per seed name together with
    the N absent marks of each, or leaves the store as it was.  On a new
    database it commits: the participants are the seed names, one each, and
    the marks are exactly the N absent marks of every participant.  Run
    again after a commit it does nothing, so no participant or mark is
    duplicated. *)
Theorem seeding_once_and_atomic :
  (forall d : Db.t, Db.students d <> [] -> Db.seed_if_empty d = (d, Db.NotEmpty))
  /\ (forall d : Db.t,
        match snd (Db.seed_if_empty d) with
        | Db.Seeded =>
            Db.students d = []
            /\ exists ids : list Z,
                 length ids = length INITIAL_NAMES
                 /\ Db.students (fst (Db.seed_if_empty d))
                    = zip_with Db.StudentRow ids INITIAL_NAMES
                 /\ Db.attendance (fst (Db.seed_if_empty d))
                    = Db.attendance d ++ flat_map Store.absent_marks ids
        | Db.NotEmpty | Db.Threw => fst (Db.seed_if_empty d) = d
        end)
  /\ (Db.seed_if_empty Db.fresh = (Store.seeded, Db.Seeded)
      /\ map Db.s_name (Db.students Store.seeded) = INITIAL_NAMES
      /\ NoDup INITIAL_NAMES
      /\ NoDup (map Db.s_id (Db.students Store.seeded))
      /\ Db.attendance Store.seeded
         = flat_map (fun s => Store.absent_marks (Db.s_id s)) (Db.students Store.seeded)
      /\ Store.complete Store.seeded = true
      /\ Store.no_stray Store.seeded = true)
  /\ (forall d : Db.t,
        snd (Db.seed_if_empty d) = Db.Seeded ->
        Db.seed_if_empty (fst (Db.seed_if_empty d))
        = (fst (Db.seed_if_empty d), Db.NotEmpty)).
Proof.
  split; [exact seed_if_empty_nonempty|split; [exact seed_if_empty_cases|split]].
  - split; [vm_compute; reflexivity|]. split; [vm_compute; reflexivity|].
    split; [refine (bool_decide_unpack _ _); vm_compute; exact I|].
    split; [refine (bool_decide_unpack _ _); vm_compute; exact I|].
    split; [vm_compute; reflexivity|]. split; vm_compute; reflexivity.
  - intros d Hd. apply seed_if_empty_nonempty.
    pose proof (seed_if_empty_cases d) as Hat. rewrite Hd in Hat.
    destruct Hat as (_ & ids & Hlen & Hst & _). rewrite Hst.
    destruct ids; [discriminate|]. discriminate.
Qed.

Lemma seeding_once_and_atomic_witness :
  Db.students Store.seeded <> []
  /\ Db.seed_if_empty Store.seeded = (Store.seeded, Db.NotEmpty).
Proof.
  assert (H : Db.students Store.seeded <> []) by (vm_compute; discriminate).
  split; [exact H | exact (proj1 seeding_once_and_atomic Store.seeded H)].
Defined.

(** ** The statements of the toggle handler on the rows *)

Section Rows.

Lemma key_matches_compat (a b a' b' : Sqlite.value) (r : Db.attendance_row) :
  Sqlite.eq a a' = true -> Sqlite.eq b b' = true ->
  Db.key_matches a b r = Db.key_matches a' b' r.
Proof.
  intros Ha Hb. unfold Db.key_matches.
  now rewrite (eq_compat _ _ _ Ha), (eq_compat _ _ _ Hb).
Qed.

Lemma key_matches_set_status (k1 k2 a b : Sqlite.value) (v : Z)
    (r : Db.attendance_row) :
  Db.key_matches k1 k2 (Db.set_status v a b r) = Db.key_matches k1 k2 r.
Proof. unfold Db.set_status. now destruct (Db.key_matches a b r). Qed.

Lemma filter_map_length {A : Type} (p : A -> bool) (f : A -> A) (l : list A) :
  (forall x, p (f x) = p x) ->
  length (List.filter p (map f l)) = length (List.filter p l).
Proof.
  intros H. induction l as [|x l IH]; simpl; [reflexivity|].
  rewrite H. destruct (p x); simpl; now rewrite IH.
Qed.

Lemma find_map_same {A : Type} (p : A -> bool) (f : A -> A) (l : list A) :
  (forall x, p (f x) = p x) ->
  List.find p (map f l) = f <$> List.find p l.
Proof.
  intros H. induction l as [|x l IH]; simpl; [reflexivity|].
  rewrite H. now destruct (p x).
Qed.

Lemma find_none_existsb {A : Type} (p : A -> bool) (l : list A) :
  List.find p l = None -> existsb p l = false.
Proof.
  induction l as [|x l IH]; simpl; [reflexivity|].
  destruct (p x); [discriminate|]. exact IH.
Qed.

Lemma existsb_false_filter {A : Type} (p : A -> bool) (l : list A) :
  existsb p l = false -> List.filter p l = [].
Proof.
  induction l as [|x l IH]; simpl; [reflexivity|].
  destruct (p x); [discriminate|]. exact IH.
Qed.

Lemma only_new_pairs_refl (d : Db.t) : Store.only_new_pairs d d.
Proof. intros s i. now left. Qed.

Lemma only_new_pairs_trans (d1 d2 d3 : Db.t) :
  Store.only_new_pairs d1 d2 -> Store.only_new_pairs d2 d3 ->
  Store.only_new_pairs d1 d3.
Proof.
  intros H12 H23 s i. specialize (H12 s i). specialize (H23 s i). lia.
Qed.

Lemma only_new_pairs_same_rows (d d' : Db.t) :
  Db.attendance d' = Db.attendance d -> Store.only_new_pairs d d'.
Proof. intros H s i. left. unfold Store.marks. now rewrite H. Qed.

Lemma insert_row_inv (a b : Sqlite.value) (st : Z) (d d' : Db.t) :
  Db.insert_row a b st d = Some d' ->
  existsb (Db.key_matches a b) (Db.attendance d) = false
  /\ (Db.foreign_keys d = true -> Db.references_student d a = true)
  /\ Db.students d' = Db.students d
  /\ Db.attendance d' = Db.attendance d ++ [Db.AttendanceRow a b st]
  /\ Db.sqlite_sequence d' = Db.sqlite_sequence d
  /\ Db.foreign_keys d' = Db.foreign_keys d.
Proof.
  unfold Db.insert_row.
  destruct (existsb _ _); [discriminate|].
  destruct (Db.foreign_keys d) eqn:Hfk; simpl.
  - destruct (Db.references_student d a); simpl; [|discriminate].
    intros [= <-]. simpl. auto 7.
  - intros [= <-]. simpl. repeat split; trivial. discriminate.
Qed.

Lemma insert_row_only_new_pairs (a b : Sqlite.value) (st : Z) (d d' : Db.t) :
  Db.insert_row a b st d = Some d' -> Store.only_new_pairs d d'.
Proof.
  intros H. apply insert_row_inv in H as (Hex & _ & _ & Hatt & _).
  intros s i. unfold Store.marks. rewrite Hatt, List.filter_app, length_app. simpl.
  destruct (Db.key_matches _ _ (Db.AttendanceRow a b st)) eqn:E; simpl; [|left; lia].
  right. unfold Db.key_matches in E. simpl in E.
  apply andb_true_iff in E as [Ea Eb].
  assert (Hnone : existsb (Db.key_matches (Sqlite.INTEGER s) (Sqlite.INTEGER i))
                          (Db.attendance d) = false).
  { rewrite <- Hex. clear Hex Hatt.
    induction (Db.attendance d) as [|r l IH]; simpl; [reflexivity|].
    rewrite IH. f_equal. symmetry. now apply key_matches_compat. }
  rewrite (existsb_false_filter _ _ Hnone). simpl. lia.
Qed.

Lemma update_only_new_pairs (v : Z) (a b : Sqlite.value) (d d' : Db.t) :
  Db.attendance d' = map (Db.set_status v a b) (Db.attendance d) ->
  Store.only_new_pairs d d'.
Proof.
  intros H s i. left. unfold Store.marks. rewrite H.
  apply filter_map_length. intros r. apply key_matches_set_status.
Qed.

End Rows.

Lemma toggle_cases (d : Db.t) (clients : list Server.client)
    (studentId dateIndex : JS.value) :
  toggle_case d clients studentId dateIndex
    (Server.toggle d clients studentId dateIndex).
Proof.
  unfold Server.toggle.
  destruct (Server.missing studentId dateIndex) eqn:Hm; [now constructor|].
  unfold Server.toggle_try, Db.selectStatus, Db.updateStatus, Db.insertAttendance.
  destruct (Sqlite.param studentId) as [a|] eqn:Ha; simpl;
    [|apply toggle_unbound; auto].
  destruct (Sqlite.param dateIndex) as [b|] eqn:Hb; simpl;
    [|apply toggle_unbound; auto].
  destruct (List.find _ _) as [r|] eqn:Hf; simpl.
  - eapply toggle_update; eauto.
  - destruct (Db.insert_row a b 1 d) as [d'|] eqn:Hi.
    + eapply toggle_insert; eauto.
    + eapply toggle_refused; eauto.
Qed.

Lemma toggle_only_new_pairs (d : Db.t) (clients : list Server.client)
    (studentId dateIndex : JS.value) :
  Store.only_new_pairs d (Server.db (Server.toggle d clients studentId dateIndex)).
Proof.
  destruct (toggle_cases d clients studentId dateIndex)
    as [Hm|Hm Hp|a b r d' Hm Ha Hb Hf newStatus Hd|a b d' Hm Ha Hb Hf Hi
        |a b Hm Ha Hb Hf Hi]; simpl;
    try apply only_new_pairs_refl.
  - subst d'. now apply (update_only_new_pairs newStatus a b).
  - eapply insert_row_only_new_pairs; eauto.
Qed.

Lemma toggle_students (d : Db.t) (clients : list Server.client)
    (studentId dateIndex : JS.value) :
  Db.students (Server.db (Server.toggle d clients studentId dateIndex)) = Db.students d
  /\ Db.foreign_keys (Server.db (Server.toggle d clients studentId dateIndex))
     = Db.foreign_keys d
  /\ Db.sqlite_sequence (Server.db (Server.toggle d clients studentId dateIndex))
     = Db.sqlite_sequence d.
Proof.
  destruct (toggle_cases d clients studentId dateIndex)
    as [Hm|Hm Hp|a b r d' Hm Ha Hb Hf newStatus Hd|a b d' Hm Ha Hb Hf Hi
        |a b Hm Ha Hb Hf Hi]; simpl; auto.
  - subst d'. auto.
  - apply insert_row_inv in Hi. tauto.
Qed.

(** ** One mark per pair *)

Section Completeness.

Lemma complete_iff (d : Db.t) :
  Store.complete d = true <->
  forall s i, In s (Db.students d) -> 0 <= i < N ->
              Store.marks d (Db.s_id s) i = 1%nat.
Proof.
  unfold Store.complete. rewrite forallb_forall. split.
  - intros H s i Hs Hi. specialize (H s Hs). rewrite forallb_forall in H.
    apply Nat.eqb_eq, H. apply list_elem_of_In, elem_of_seqZ. lia.
  - intros H s Hs. apply forallb_forall. intros i Hi.
    apply Nat.eqb_eq, H; [exact Hs|].
    apply list_elem_of_In, elem_of_seqZ in Hi. lia.
Qed.

Lemma complete_preserved (d d' : Db.t) :
  Store.only_new_pairs d d' -> Db.students d' = Db.students d ->
  Store.complete d = true -> Store.complete d' = true.
Proof.
  rewrite !complete_iff. intros Hnew Hst H s i Hs Hi.
  rewrite Hst in Hs. specialize (H s i Hs Hi).
  destruct (Hnew (Db.s_id s) i) as [->|[H0 _]]; [exact H|congruence].
Qed.

Lemma no_stray_set_status (v : Z) (a b : Sqlite.value) (l : list Db.attendance_row) :
  forallb (fun r => Store.in_range (Db.date_index r)) (map (Db.set_status v a b) l)
  = forallb (fun r => Store.in_range (Db.date_index r)) l.
Proof.
  induction l as [|r l IH]; simpl; [reflexivity|].
  rewrite IH. f_equal. unfold Db.set_status. now destruct (Db.key_matches a b r).
Qed.

Lemma toggle_no_stray (d : Db.t) (clients : list Server.client)
    (studentId dateIndex : JS.value) (k : Z) :
  Store.names_index dateIndex k -> 0 <= k < N ->
  Store.no_stray d = true ->
  Store.no_stray (Server.db (Server.toggle d clients studentId dateIndex)) = true.
Proof.
  intros Hk Hr Hd.
  destruct (toggle_cases d clients studentId dateIndex)
    as [Hm|Hm Hp|a b r d' Hm Ha Hb Hf newStatus Hd'|a b d' Hm Ha Hb Hf Hi
        |a b Hm Ha Hb Hf Hi]; simpl; trivial.
  - subst d'. unfold Store.no_stray. simpl. now rewrite no_stray_set_status.
  - apply insert_row_inv in Hi as (_ & _ & _ & Hatt & _).
    unfold Store.no_stray. rewrite Hatt, forallb_app. simpl.
    unfold Store.no_stray in Hd. rewrite Hd. simpl.
    red in Hk. rewrite Hk in Hb. injection Hb as <-. simpl.
    rewrite andb_true_r. apply andb_true_iff. split; [apply Z.leb_le|apply Z.ltb_lt]; lia.
Qed.

Lemma for_each_only_new_pairs {A : Type} (body : A -> Db.t -> option Db.t)
    (l : list A) :
  (forall x d d', body x d = Some d' -> Store.only_new_pairs d d') ->
  forall d d', Db.for_each body l d = Some d' -> Store.only_new_pairs d d'.
Proof.
  intros Hbody. induction l as [|x l IH]; intros d d'; simpl.
  - intros [= <-]. apply only_new_pairs_refl.
  - destruct (body x d) as [d1|] eqn:E; [|discriminate].
    intros H. eapply only_new_pairs_trans; [eapply Hbody; eauto|eapply IH; eauto].
Qed.

Lemma insertAttendance_only_new_pairs (x y : JS.value) (st : Z) (d d' : Db.t) :
  Db.insertAttendance x y st d = Some d' -> Store.only_new_pairs d d'.
Proof.
  unfold Db.insertAttendance.
  destruct (Sqlite.param x); simpl; [|discriminate].
  destruct (Sqlite.param y); simpl; [|discriminate].
  apply insert_row_only_new_pairs.
Qed.

Lemma seed_student_only_new_pairs (name : string) (d d' : Db.t) :
  Db.seed_student name d = Some d' -> Store.only_new_pairs d d'.
Proof.
  unfold Db.seed_student, Db.insertStudent. intros H.
  eapply only_new_pairs_trans;
    [|eapply for_each_only_new_pairs; [|exact H];
      intros i d1 d2; apply insertAttendance_only_new_pairs].
  now apply only_new_pairs_same_rows.
Qed.

Lemma seed_all_only_new_pairs (d d' : Db.t) :
  Db.seed_all d = Some d' -> Store.only_new_pairs d d'.
Proof.
  apply for_each_only_new_pairs. intros x. apply seed_student_only_new_pairs.
Qed.

Lemma filter_In_length {A : Type} (p : A -> bool) (x : A) (l : list A) :
  In x l -> p x = true -> (1 <= length (List.filter p l))%nat.
Proof.
  intros Hin Hp. assert (H : In x (List.filter p l)) by (apply filter_In; auto).
  destruct (List.filter p l); [destruct H|simpl; lia].
Qed.

Lemma key_matches_refl (s i st : Z) :
  Db.key_matches (Sqlite.INTEGER s) (Sqlite.INTEGER i)
    (Db.AttendanceRow (Sqlite.INTEGER s) (Sqlite.INTEGER i) st) = true.
Proof.
  unfold Db.key_matches. cbn [Db.student_id Db.date_index].
  now rewrite !eq_INTEGER, !Z.eqb_refl.
Qed.

Lemma in_zip_with_ids (ids : list Z) (names : list string) (s : Db.student_row) :
  In s (zip_with Db.StudentRow ids names) -> In (Db.s_id s) ids.
Proof.
  revert names. induction ids as [|x ids IH]; intros [|n names]; simpl; try tauto.
  intros [<-|H]; [now left|right; eauto].
Qed.

Lemma seed_if_empty_invariant (d : Db.t) :
  Store.complete d = true -> Store.no_stray d = true ->
  Store.complete (fst (Db.seed_if_empty d)) = true
  /\ Store.no_stray (fst (Db.seed_if_empty d)) = true.
Proof.
  intros Hc Hs.
  pose proof (seed_if_empty_cases d) as Hat.
  assert (Hnew : Store.only_new_pairs d (fst (Db.seed_if_empty d))).
  { unfold Db.seed_if_empty, Db.transaction.
    destruct (_ =? 0); [|apply only_new_pairs_refl].
    destruct (Db.seed_all d) eqn:E; simpl; [|apply only_new_pairs_refl].
    now apply seed_all_only_new_pairs. }
  destruct (snd (Db.seed_if_empty d)); try (rewrite Hat; auto).
  destruct Hat as (Hempty & ids & Hlen & Hst & Hatt). split.
  - apply complete_iff. intros s i Hin Hi.
    rewrite Hst in Hin. apply in_zip_with_ids in Hin.
    destruct (Hnew (Db.s_id s) i) as [Heq|[_ H1]]; [|exact H1].
    exfalso. unfold Store.marks in Heq.
    rewrite Hatt, List.filter_app, length_app in Heq.
    assert (1 <= length (List.filter
               (Db.key_matches (Sqlite.INTEGER (Db.s_id s)) (Sqlite.INTEGER i))
               (flat_map Store.absent_marks ids)))%nat; [|lia].
    apply (filter_In_length _
             (Db.AttendanceRow (Sqlite.INTEGER (Db.s_id s)) (Sqlite.INTEGER i) 0));
      [|apply key_matches_refl].
    apply in_flat_map. exists (Db.s_id s). split; [exact Hin|].
    unfold Store.absent_marks. apply in_map_iff. exists i. split; [reflexivity|].
    apply list_elem_of_In, elem_of_seqZ. lia.
  - unfold Store.no_stray. rewrite Hatt, forallb_app.
    unfold Store.no_stray in Hs. rewrite Hs. simpl.
    apply forallb_forall. intros r Hr.
    apply in_flat_map in Hr as (s & _ & Hr).
    unfold Store.absent_marks in Hr. apply in_map_iff in Hr as (i & <- & Hi).
    apply list_elem_of_In, elem_of_seqZ in Hi. simpl.
    apply andb_true_iff. split; [apply Z.leb_le|apply Z.ltb_lt]; lia.
Qed.

End Completeness.

(** C2 (amended): after the first seeding exactly one mark exists for every
    participant and every index below N, and none for another index.
    Seeding and every toggle keep "exactly one mark per in-range pair": a
    pair's number of marks only ever goes from none to one.  The absence of
    marks for other indexes is kept by seeding and by every toggle whose
    [dateIndex] is an index below N. *)
Theorem marks_invariant :
  (Store.complete Store.seeded = true /\ Store.no_stray Store.seeded = true)
  /\ (forall (d : Db.t) (clients : list Server.client) (studentId dateIndex : JS.value),
        let d' := Server.db (Server.toggle d clients studentId dateIndex) in
        Store.only_new_pairs d d'
        /\ (Store.complete d = true -> Store.complete d' = true))
  /\ (forall (d : Db.t) (clients : list Server.client) (studentId dateIndex : JS.value)
             (k : Z),
        Store.names_index dateIndex k -> 0 <= k < N ->
        Store.no_stray d = true ->
        Store.no_stray (Server.db (Server.toggle d clients studentId dateIndex)) = true)
  /\ (forall d : Db.t,
        Store.complete d = true -> Store.no_stray d = true ->
        Store.complete (fst (Db.seed_if_empty d)) = true
        /\ Store.no_stray (fst (Db.seed_if_empty d)) = true).
Proof.
  split; [split; vm_compute; reflexivity|].
  split; [|split; [apply toggle_no_stray|apply seed_if_empty_invariant]].
  intros d clients studentId dateIndex d'. split.
  - apply toggle_only_new_pairs.
  - apply complete_preserved; [apply toggle_only_new_pairs|apply toggle_students].
Qed.

Lemma marks_invariant_witness :
  Store.no_stray
    (Server.db (Server.toggle Store.seeded [] (JS.int 3) (JS.int 9))) = true
  /\ Store.complete
       (Server.db (Server.toggle Store.seeded [] (JS.int 3) (JS.int 10))) = true.
Proof.
  split.
  - apply (proj1 (proj2 (proj2 marks_invariant)) Store.seeded [] (JS.int 3) (JS.int 9) 9).
    + vm_compute. reflexivity.
    + vm_compute. split; [discriminate|reflexivity].
    + vm_compute. reflexivity.
  - apply (proj1 (proj2 marks_invariant) Store.seeded [] (JS.int 3) (JS.int 10)).
    vm_compute. reflexivity.
Defined.

(** The invariant of C2 as the claim states it fails: on the seeded store
    (where it holds) a toggle of participant 1 at index 10 = N succeeds and
    leaves a mark for the out-of-range index. *)
Lemma stray_mark_after_toggle :
  Store.complete Store.seeded = true
  /\ Store.no_stray Store.seeded = true
  /\ Server.reply (Server.toggle Store.seeded [] (JS.int 1) (JS.int 10))
     = Server.Success 1
  /\ last (Db.attendance
             (Server.db (Server.toggle Store.seeded [] (JS.int 1) (JS.int 10))))
     = Some (Db.AttendanceRow (Sqlite.INTEGER 1) (Sqlite.INTEGER 10) 1)
  /\ Store.no_stray
       (Server.db (Server.toggle Store.seeded [] (JS.int 1) (JS.int 10))) = false.
Proof. repeat split; vm_compute; reflexivity. Qed.

(** ** Rows the snapshot does not show *)

Section Hidden.

Lemma Qred_of_int (q : Q) (k : Z) :
  Qeq_bool q (inject_Z k) = true -> Qred q = inject_Z k.
Proof.
  intros H. apply Qeq_bool_iff in H. apply Qred_complete in H.
  rewrite H. apply Qcanon.Qred_identity. simpl. apply Z.gcd_1_r.
Qed.

Lemma array_index_eq_INTEGER (v : Sqlite.value) (k : Z) :
  Sqlite.eq v (Sqlite.INTEGER k) = true ->
  Server.array_index v = if 0 <=? k then Some (Z.to_nat k) else None.
Proof.
  destruct v as [|z|q|s]; simpl; try discriminate.
  - intros H. change (Qeq_bool (inject_Z z) (inject_Z k))
      with (Sqlite.eq (Sqlite.INTEGER z) (Sqlite.INTEGER k)) in H.
    rewrite eq_INTEGER in H. apply Z.eqb_eq in H. now subst.
  - intros H. rewrite (Qred_of_int _ _ H). simpl. reflexivity.
Qed.


Lemma mark_not_shown (arr : list Z) (r : Db.attendance_row) :
  Store.shown r = false -> Server.mark arr r = arr.
Proof.
  unfold Store.shown, Server.mark.
  destruct (Server.array_index _); [|reflexivity]. now intros ->.
Qed.


Lemma fold_mark_snoc (s : Z) (l : list Db.attendance_row) (r : Db.attendance_row)
    (arr : list Z) :
  Store.shown r = false ->
  fold_left Server.mark (List.filter (Server.student_id_is s) (l ++ [r])) arr
  = fold_left Server.mark (List.filter (Server.student_id_is s) l) arr.
Proof.
  intros H. rewrite List.filter_app, fold_left_app. simpl.
  destruct (Server.student_id_is s r); simpl; [|reflexivity].
  now apply mark_not_shown.
Qed.

Lemma listSnapshot_ext (d d' : Db.t) :
  Db.students d' = Db.students d ->
  (forall s,
      fold_left Server.mark
        (List.filter (Server.student_id_is s) (Db.attendance d'))
        (replicate (length MEETING_DATES) 0)
      = fold_left Server.mark
          (List.filter (Server.student_id_is s) (Db.attendance d))
          (replicate (length MEETING_DATES) 0)) ->
  Server.listSnapshot d' = Server.listSnapshot d.
Proof.
  intros Hs Hf. unfold Server.listSnapshot. rewrite Hs.
  apply map_ext. intros s. unfold Server.to_frontend. now rewrite Hf.
Qed.


End Hidden.

(** ** Requests for a participant that does not exist *)

Section Unknown.





End Unknown.




(** ** Text that reads as a number is never kept as text *)

Section NumericText.

Lemma digit_char (c : ascii) (d : Z) (l : list ascii) :
  Sqlite.digit c = Some d ->
  Sqlite.isspace c = false /\ Sqlite.sign (c :: l) = (false, c :: l)
  /\ (forall r, c :: l <> "."%char :: r)
  /\ (forall r, c :: l <> "e"%char :: r) /\ (forall r, c :: l <> "E"%char :: r).
Proof.
  destruct c as [[] [] [] [] [] [] [] []]; intros H; vm_compute in H;
    try discriminate H; repeat split; intros; discriminate.
Qed.

Lemma digits_count (l : list ascii) (acc : Z) (n : nat) :
  (n <= snd (fst (Sqlite.digits l acc n)))%nat.
Proof.
  revert acc n. induction l as [|c l IH]; intros acc n; simpl; [lia|].
  destruct (Sqlite.digit c); simpl; [|lia].
  specialize (IH (10 * acc + z) (S n)). lia.
Qed.

Lemma AtoF_digits (s : string) (z : Z) (n : nat) :
  Sqlite.digits (list_ascii_of_string s) 0 0%nat = (z, n, []) ->
  s <> "" -> Sqlite.AtoF s <> None.
Proof.
  intros Hd Hs. unfold Sqlite.AtoF.
  destruct s as [|c s']; [congruence|]. cbn [list_ascii_of_string] in *.
  destruct (Sqlite.digit c) as [d0|] eqn:Hc;
    [|simpl in Hd; rewrite Hc in Hd; discriminate].
  destruct (digit_char c d0 (list_ascii_of_string s') Hc) as (Hsp & Hsg & _).
  cbn [Sqlite.skip_spaces]. rewrite Hsp, Hsg, Hd. cbn.
  pose proof (digits_count (c :: list_ascii_of_string s') 0 0) as Hn.
  rewrite Hd in Hn. simpl in Hn.
  pose proof (digits_count (list_ascii_of_string s') (10 * 0 + d0) 1) as Hn1.
  simpl in Hd. rewrite Hc in Hd. rewrite Hd in Hn1. simpl in Hn1.
  destruct n; [lia|]. simpl. discriminate.
Qed.

Lemma String_of_int_nonempty (z : Z) : JS.String_of_int z <> "".
Proof.
  unfold JS.String_of_int, NilZero.string_of_int.
  destruct (Z.to_int z) as [u|u]; [|discriminate].
  unfold NilZero.string_of_uint. destruct u; discriminate.
Qed.

Lemma of_Q_not_TEXT (q : Q) (s : string) : Sqlite.of_Q q <> Sqlite.TEXT s.
Proof.
  unfold Sqlite.of_Q. destruct (Pos.eqb (Qden (Qred q)) 1); discriminate.
Qed.

Lemma same_eq (a b : Sqlite.value) : Store.same a b = true -> a = b.
Proof.
  destruct a as [|x|[p1 p2]|s], b as [|y|[q1 q2]|t]; simpl; try discriminate;
    trivial.
  - intros H. apply Z.eqb_eq in H. congruence.
  - unfold Store.Q_same. simpl. intros H. apply andb_true_iff in H as [H1 H2].
    apply Z.eqb_eq in H1. apply Pos.eqb_eq in H2. congruence.
  - intros H. apply String.eqb_eq in H. congruence.
Qed.

(** In a column kept by numeric affinity only an INTEGER designates an
    element of the array. *)
Lemma normal_array_index (v : Sqlite.value) (i : nat) :
  Store.normal v = true -> Server.array_index v = Some i ->
  v = Sqlite.INTEGER (Z.of_nat i).
Proof.
  unfold Store.normal. intros Hn Hi. apply same_eq in Hn.
  destruct v as [|z|q|s]; cbn [Server.array_index] in Hi; try discriminate.
  - destruct (0 <=? z) eqn:E; [|discriminate]. apply Z.leb_le in E.
    injection Hi as <-. now rewrite Z2Nat.id.
  - exfalso. cbn [Sqlite.apply_affinity] in Hn. unfold Sqlite.of_Q in Hn.
    cbv zeta in Hi.
    destruct (Pos.eqb (Qden (Qred q)) 1); [discriminate Hn|discriminate Hi].
  - exfalso. cbn [Sqlite.apply_affinity] in Hn.
    destruct (Sqlite.digits (list_ascii_of_string s) 0 0) as [[z n] r] eqn:Hd.
    destruct r; [|discriminate].
    destruct (String.eqb (JS.String_of_int z) s) eqn:Es; [|discriminate].
    apply String.eqb_eq in Es.
    assert (Hs : s <> "") by (rewrite <- Es; apply String_of_int_nonempty).
    pose proof (AtoF_digits s z n Hd Hs) as Ha.
    destruct (Sqlite.AtoF s) as [q|]; [|congruence].
    now apply of_Q_not_TEXT in Hn.
Qed.

End NumericText.

(** ** Toggling a pair twice *)

Section Twice.

Lemma toggle_found (d : Db.t) (clients : list Server.client)
    (studentId dateIndex : JS.value) (a b : Sqlite.value) (r : Db.attendance_row) :
  Server.missing studentId dateIndex = false ->
  Sqlite.param studentId = Some a -> Sqlite.param dateIndex = Some b ->
  List.find (Db.key_matches a b) (Db.attendance d) = Some r ->
  Server.toggle d clients studentId dateIndex
  = let newStatus := if Db.status r =? 1 then 0 else 1 in
    Server.Result
      (Db.Make (Db.students d) (map (Db.set_status newStatus a b) (Db.attendance d))
               (Db.sqlite_sequence d) (Db.foreign_keys d))
      (Server.Success newStatus)
      (Server.broadcast clients
         (Server.UPDATE_ATTENDANCE studentId dateIndex newStatus)).
Proof.
  intros Hm Ha Hb Hf.
  unfold Server.toggle, Server.toggle_try, Db.selectStatus, Db.updateStatus.
  rewrite Hm, Ha, Hb. simpl. rewrite Hf. reflexivity.
Qed.

Lemma toggle_absent (d : Db.t) (clients : list Server.client)
    (studentId dateIndex : JS.value) (a b : Sqlite.value) :
  Server.missing studentId dateIndex = false ->
  Sqlite.param studentId = Some a -> Sqlite.param dateIndex = Some b ->
  List.find (Db.key_matches a b) (Db.attendance d) = None ->
  Server.toggle d clients studentId dateIndex
  = match Db.insert_row a b 1 d with
    | Some d' =>
        Server.Result d' (Server.Success 1)
          (Server.broadcast clients (Server.UPDATE_ATTENDANCE studentId dateIndex 1))
    | None => Server.Result d Server.DatabaseError []
    end.
Proof.
  intros Hm Ha Hb Hf.
  unfold Server.toggle, Server.toggle_try, Db.selectStatus, Db.insertAttendance.
  rewrite Hm, Ha, Hb. simpl. rewrite Hf. simpl.
  now destruct (Db.insert_row a b 1 d).
Qed.

Lemma current_find (d : Db.t) (studentId dateIndex : JS.value) (a b : Sqlite.value) :
  Sqlite.param studentId = Some a -> Sqlite.param dateIndex = Some b ->
  Store.current d studentId dateIndex
  = match List.find (Db.key_matches a b) (Db.attendance d) with
    | Some r => Db.status r
    | None => 0
    end.
Proof.
  intros Ha Hb. unfold Store.current, Db.selectStatus. rewrite Ha, Hb. simpl.
  now destruct (List.find _ _).
Qed.

(** Under the primary key at most one row answers to a key. *)
Lemma unique_match (l : list Db.attendance_row) (a b : Sqlite.value)
    (r r' : Db.attendance_row) :
  Store.unique_keys l = true ->
  List.find (Db.key_matches a b) l = Some r ->
  In r' l -> Db.key_matches a b r' = true -> r' = r.
Proof.
  induction l as [|h t IH]; simpl; [discriminate|].
  intros Hu Hf Hin Hk. apply andb_true_iff in Hu as [Hh Ht].
  apply negb_true_iff in Hh.
  assert (Hcross : forall x y, Db.key_matches a b x = true ->
                               Db.key_matches a b y = true ->
                               Db.key_matches (Db.student_id x) (Db.date_index x) y = true).
  { intros x y Hx Hy. unfold Db.key_matches in *.
    apply andb_true_iff in Hx as [Hx1 Hx2]. apply andb_true_iff in Hy as [Hy1 Hy2].
    apply andb_true_iff. split.
    - eapply eq_trans; [exact Hy1|]. now rewrite eq_sym.
    - eapply eq_trans; [exact Hy2|]. now rewrite eq_sym. }
  destruct (Db.key_matches a b h) eqn:Eh.
  - injection Hf as <-. destruct Hin as [->|Hin]; [reflexivity|].
    exfalso. assert (existsb (Db.key_matches (Db.student_id h) (Db.date_index h)) t = true);
      [|congruence].
    apply existsb_exists. exists r'. split; [exact Hin|now apply Hcross].
  - destruct Hin as [->|Hin]; [congruence|]. now apply IH.
Qed.

Lemma flip_flip (v : Z) :
  v = 0 \/ v = 1 ->
  (if v =? 1 then 0 else 1) = 1 - v
  /\ (if (if v =? 1 then 0 else 1) =? 1 then 0 else 1) = v.
Proof. intros [->| ->]; split; reflexivity. Qed.

Lemma student_id_is_eq (s : Z) (r : Db.attendance_row) :
  Server.student_id_is s r = true ->
  Sqlite.eq (Db.student_id r) (Sqlite.INTEGER s) = true.
Proof.
  unfold Server.student_id_is. destruct (Db.student_id r); try discriminate.
  - now rewrite eq_INTEGER.
  - trivial.
Qed.

Lemma eq_INTEGER_refl (z : Z) : Sqlite.eq (Sqlite.INTEGER z) (Sqlite.INTEGER z) = true.
Proof. rewrite eq_INTEGER. apply Z.eqb_refl. Qed.

Lemma map_set_status_none (v : Z) (a b : Sqlite.value) (l : list Db.attendance_row) :
  existsb (Db.key_matches a b) l = false -> map (Db.set_status v a b) l = l.
Proof.
  induction l as [|r l IH]; simpl; [reflexivity|].
  intros H. apply orb_false_iff in H as [Hr Hl].
  unfold Db.set_status at 1. rewrite Hr. now rewrite IH.
Qed.

Lemma find_app_none {A : Type} (p : A -> bool) (l : list A) (x : A) :
  List.find p l = None -> p x = true -> List.find p (l ++ [x]) = Some x.
Proof.
  induction l as [|y l IH]; simpl; intros Hf Hx; [now rewrite Hx|].
  destruct (p y); [discriminate|]. now apply IH.
Qed.

End Twice.

(** C3: on a store kept by the engine (affinity-normal keys, primary key,
    marks 0 or 1), for a request that names an existing participant and an
    index below N, the first toggle answers with the flipped mark and
    stores it, a second toggle answers with the original mark and stores
    it; the snapshot is then the one before the two calls, and so is the
    whole store when the pair had a row. *)
Theorem toggle_twice (d : Db.t) (clients1 clients2 : list Server.client)
    (studentId dateIndex : JS.value) (s k : Z) :
  Store.wf d = true ->
  JS.truthy studentId = true ->
  Store.names_student studentId s -> In s (map Db.s_id (Db.students d)) ->
  Store.names_index dateIndex k -> 0 <= k < N ->
  let v := Store.current d studentId dateIndex in
  let r1 := Server.toggle d clients1 studentId dateIndex in
  let r2 := Server.toggle (Server.db r1) clients2 studentId dateIndex in
  (v = 0 \/ v = 1)
  /\ Server.reply r1 = Server.Success (1 - v)
  /\ Store.current (Server.db r1) studentId dateIndex = 1 - v
  /\ Server.reply r2 = Server.Success v
  /\ Store.current (Server.db r2) studentId dateIndex = v
  /\ Server.listSnapshot (Server.db r2) = Server.listSnapshot d
  /\ (Db.selectStatus studentId dateIndex d <> Some None -> Server.db r2 = d).
Proof.
  intros Hwf Htr Hs Hin Hk Hrange. red in Hs, Hk.
  unfold Store.wf in Hwf.
  apply andb_true_iff in Hwf as [Hwf Hbin]. apply andb_true_iff in Hwf as [Hnorm Huniq].
  assert (Hm : Server.missing studentId dateIndex = false).
  { unfold Server.missing. rewrite Htr. simpl.
    destruct dateIndex; trivial. discriminate. }
  set (a := Sqlite.INTEGER s) in *. set (b := Sqlite.INTEGER k) in *.
  cbv zeta. rewrite (current_find d _ _ a b Hs Hk).
  destruct (List.find (Db.key_matches a b) (Db.attendance d)) as [r|] eqn:Hf.
  - (* the pair has a row *)
    pose proof (find_some _ _ Hf) as [Hrin Hrk].
    assert (Hv : Db.status r = 0 \/ Db.status r = 1).
    { rewrite forallb_forall in Hbin. specialize (Hbin r Hrin).
      unfold Store.binary_row in Hbin. apply orb_true_iff in Hbin.
      destruct Hbin as [H|H]; apply Z.eqb_eq in H; auto. }
    destruct (flip_flip _ Hv) as [Hflip Hback].
    rewrite (toggle_found d clients1 _ _ a b r Hm Hs Hk Hf). cbv zeta.
    cbn [Server.db Server.reply].
    set (ns := if Db.status r =? 1 then 0 else 1) in *.
    set (d1 := Db.Make _ _ _ _).
    assert (Hf1 : List.find (Db.key_matches a b) (Db.attendance d1)
                  = Some (Db.AttendanceRow (Db.student_id r) (Db.date_index r) ns)).
    { subst d1. cbn [Db.attendance].
      rewrite find_map_same by (intros x; apply key_matches_set_status).
      rewrite Hf. simpl. unfold Db.set_status. now rewrite Hrk. }
    rewrite (toggle_found d1 clients2 _ _ a b _ Hm Hs Hk Hf1). cbv zeta.
    cbn [Server.db Server.reply Db.status].
    rewrite (current_find d1 _ _ a b Hs Hk), Hf1. cbn [Db.status].
    rewrite Hback.
    set (d2 := Db.Make _ _ _ _).
    assert (Hd2 : d2 = d).
    { subst d2 d1. cbn [Db.students Db.attendance Db.sqlite_sequence Db.foreign_keys].
      rewrite map_map.
      replace (map _ (Db.attendance d)) with (Db.attendance d);
        [now destruct d|].
      symmetry. rewrite <- (map_id (Db.attendance d)) at 2.
      apply map_ext_in. intros x Hx. unfold Db.set_status at 2.
      destruct (Db.key_matches a b x) eqn:Ex.
      - unfold Db.set_status, Db.key_matches. cbn [Db.student_id Db.date_index].
        unfold Db.key_matches in Ex. rewrite Ex.
        rewrite (unique_match _ a b r x Huniq Hf Hx) by exact Ex.
        now destruct r.
      - unfold Db.set_status. now rewrite Ex. }
    rewrite (current_find d2 _ _ a b Hs Hk), Hd2, Hf.
    repeat split; trivial. congruence.
  - (* the pair has no row: the self-healing insert *)
    pose proof (find_none_existsb _ _ Hf) as Hex.
    assert (Href : Db.references_student d a = true).
    { unfold Db.references_student, a. apply existsb_exists.
      apply in_map_iff in Hin as (st & <- & Hst). exists st.
      split; [exact Hst|apply eq_INTEGER_refl]. }
    rewrite (toggle_absent d clients1 _ _ a b Hm Hs Hk Hf).
    unfold Db.insert_row. rewrite Hex, Href, andb_false_r.
    cbn [Server.db Server.reply].
    set (d1 := Db.Make _ _ _ _).
    assert (Hself : Db.key_matches a b (Db.AttendanceRow a b 1) = true)
      by apply key_matches_refl.
    assert (Hf1 : List.find (Db.key_matches a b) (Db.attendance d1)
                  = Some (Db.AttendanceRow a b 1)).
    { subst d1. cbn [Db.attendance]. now apply find_app_none. }
    rewrite (toggle_found d1 clients2 _ _ a b _ Hm Hs Hk Hf1). cbv zeta.
    cbn [Server.db Server.reply Db.status].
    rewrite (current_find d1 _ _ a b Hs Hk), Hf1. cbn [Db.status].
    change (if 1 =? 1 then 0 else 1) with 0.
    set (d2 := Db.Make _ _ _ _).
    assert (Hatt2 : Db.attendance d2 = Db.attendance d ++ [Db.AttendanceRow a b 0]).
    { subst d2 d1. cbn [Db.attendance]. rewrite map_app.
      rewrite (map_set_status_none _ _ _ _ Hex). simpl.
      unfold Db.set_status. now rewrite Hself. }
    assert (Hf2 : List.find (Db.key_matches a b) (Db.attendance d2)
                  = Some (Db.AttendanceRow a b 0)).
    { rewrite Hatt2. apply find_app_none; [exact Hf|apply key_matches_refl]. }
    rewrite (current_find d2 _ _ a b Hs Hk), Hf2. cbn [Db.status].
    split; [now left|]. split; [reflexivity|]. split; [reflexivity|].
    split; [reflexivity|]. split; [reflexivity|]. split.
    + apply listSnapshot_ext; [reflexivity|]. intros s0. rewrite Hatt2.
      rewrite List.filter_app, fold_left_app.
      cbn [List.filter]. destruct (Server.student_id_is s0 _) eqn:Es0; [|reflexivity].
      cbn [fold_left]. unfold Server.mark at 1. cbn [Db.date_index Db.status].
      unfold b at 1. cbn [Server.array_index].
      assert (H0k : (0 <=? k) = true) by (apply Z.leb_le; lia). rewrite H0k.
      rewrite Z2Nat.id by lia.
      assert (HkN : (k <? N) = true) by (apply Z.ltb_lt; lia). rewrite HkN.
      apply list_insert_id.
      rewrite fold_mark_lookup;
        [|rewrite length_replicate; unfold N in Hrange; lia|rewrite Z2Nat.id; lia].
      assert (Es : s0 = s).
      { unfold Server.student_id_is, a in Es0. cbn [Db.student_id] in Es0.
        apply Z.eqb_eq in Es0. congruence. }
      subst s0.
      replace (List.filter (Store.index_is (Z.to_nat k))
                 (List.filter (Server.student_id_is s) (Db.attendance d))) with
        (@nil Db.attendance_row);
        [cbn [last]; apply lookup_replicate_2; unfold N in Hrange; lia|].
      symmetry. rewrite filter_filter. apply existsb_false_filter.
      apply not_true_is_false. intros E.
      apply existsb_exists in E as (x & Hx & Hxp).
      apply andb_true_iff in Hxp as [Hx1 Hx2].
      assert (existsb (Db.key_matches a b) (Db.attendance d) = true); [|congruence].
      apply existsb_exists. exists x. split; [exact Hx|].
      unfold Db.key_matches. apply andb_true_iff. split.
      * now apply student_id_is_eq.
      * unfold Store.index_is in Hx2.
        destruct (Server.array_index (Db.date_index x)) as [i|] eqn:Ei; [|discriminate].
        apply Nat.eqb_eq in Hx2. subst i.
        rewrite forallb_forall in Hnorm. specialize (Hnorm x Hx).
        unfold Store.normal_row in Hnorm. apply andb_true_iff in Hnorm as [_ Hnd].
        rewrite (normal_array_index _ _ Hnd Ei), Z2Nat.id by lia.
        apply eq_INTEGER_refl.
    + intros H. exfalso. apply H. unfold Db.selectStatus. rewrite Hs, Hk. simpl.
      now rewrite Hf.
Qed.

Lemma toggle_twice_witness :
  Server.reply (Server.toggle Store.seeded [] (JS.Str "3") (JS.int 0)) = Server.Success 1
  /\ Server.db
       (Server.toggle (Server.db (Server.toggle Store.seeded [] (JS.Str "3") (JS.int 0)))
          [] (JS.Str "3") (JS.int 0))
     = Store.seeded.
Proof.
  pose proof (toggle_twice Store.seeded [] [] (JS.Str "3") (JS.int 0) 3 0) as H.
  assert (H1 : Store.wf Store.seeded = true) by (vm_compute; reflexivity).
  assert (H2 : JS.truthy (JS.Str "3") = true) by reflexivity.
  assert (H3 : Store.names_student (JS.Str "3") 3) by (vm_compute; reflexivity).
  assert (H4 : In 3 (map Db.s_id (Db.students Store.seeded)))
    by (vm_compute; tauto).
  assert (H5 : Store.names_index (JS.int 0) 0) by (vm_compute; reflexivity).
  assert (H6 : 0 <= 0 < N) by (vm_compute; split; [discriminate|reflexivity]).
  specialize (H H1 H2 H3 H4 H5 H6). cbv zeta in H.
  destruct H as (_ & Ha & _ & _ & _ & _ & Hb).
  split.
  - rewrite Ha. vm_compute. reflexivity.
  - apply Hb. vm_compute. discriminate.
Defined.

(** ** The order of the snapshot *)

Lemma ordered_map {A B : Type} (le : A -> A -> bool) (le' : B -> B -> bool)
    (f : A -> B) (l : list A) :
  (forall x y, le x y = true -> le' (f x) (f y) = true) ->
  ordered le l -> ordered le' (map f l).
Proof.
  intros H. induction l as [|x [|y r] IH]; simpl; trivial.
  intros [Hxy Hr]. split; [now apply H|now apply IH].
Qed.

(** The snapshot is in the order of the bytes of the names. *)
Lemma listSnapshot_byte_order (d : Db.t) :
  ordered (fun a b => String.leb (name a) (name b)) (Server.listSnapshot d).
Proof.
  unfold Server.listSnapshot, Server.order_by_name.
  apply (ordered_map (fun a b => String.leb (Db.s_name a) (Db.s_name b))).
  - intros x y H. exact H.
  - apply sort_by_ordered. intros a b. apply String.leb_total.
Qed.


(** ** The viewer *)

Section ViewerLemmas.

Lemma guarded_set_length (bound : Z) (arr : list Z) (i v : Z) :
  length (Viewer.guarded_set bound arr i v) = length arr.
Proof.
  unfold Viewer.guarded_set. destruct (i <? bound); [|reflexivity].
  destruct (0 <=? i); [apply length_insert|reflexivity].
Qed.

Lemma guarded_set_other (bound : Z) (arr : list Z) (i v : Z) (j : nat) :
  Z.of_nat j <> i -> Viewer.guarded_set bound arr i v !! j = arr !! j.
Proof.
  intros Hj. unfold Viewer.guarded_set. destruct (i <? bound); [|reflexivity].
  destruct (0 <=? i) eqn:E; [|reflexivity]. apply Z.leb_le in E.
  apply list_lookup_insert_ne. lia.
Qed.

Lemma guarded_set_same (arr : list Z) (i v : Z) (j : nat) :
  Z.of_nat j = i -> (j < length arr)%nat ->
  Viewer.guarded_set (Z.of_nat (length arr)) arr i v !! j = Some v.
Proof.
  intros <- Hj. unfold Viewer.guarded_set.
  assert (H1 : (Z.of_nat j <? Z.of_nat (length arr)) = true) by (apply Z.ltb_lt; lia).
  assert (H2 : (0 <=? Z.of_nat j) = true) by (apply Z.leb_le; lia).
  rewrite H1, H2, Nat2Z.id. now apply list_lookup_insert_eq.
Qed.

Lemma byte_compare_total (a b : string) :
  Viewer.byte_compare a b <= 0 \/ Viewer.byte_compare b a <= 0.
Proof.
  unfold Viewer.byte_compare. rewrite (String.compare_antisym a b).
  destruct (String.compare b a); simpl; lia.
Qed.

Lemma run_fetch_calls (localeCompare : string -> string -> Z)
    (es : list Viewer.event) (st : Viewer.state) :
  Viewer.fetch_calls (Viewer.run localeCompare st es) = Viewer.fetch_calls st.
Proof.
  unfold Viewer.run. revert st. induction es as [|e es IH]; intros st; simpl;
    [reflexivity|].
  rewrite IH. destruct e as [[]|[]|[]]; reflexivity.
Qed.

Lemma imap_names {A : Type} (f : nat -> string -> A) (g : A -> string)
    (l : list string) :
  (forall i x, g (f i x) = x) -> map g (imap f l) = l.
Proof.
  intros H. revert f H. induction l as [|x l IH]; intros f H; simpl; [reflexivity|].
  rewrite H. f_equal. apply IH. intros i y. unfold compose. apply H.
Qed.

End ViewerLemmas.

(** C8: a realtime event for ([student_id], [date_index]) with value
    [status] keeps the list of students, their ids, names and array lengths;
    a student with another id is untouched; in the student with that id
    every element other than [date_index] keeps its value, and the element
    [date_index], when the array has it, becomes [status] whatever it was.
    Nothing else of the state changes. *)
Theorem realtime_overwrites (st : Viewer.state) (student_id date_index status : Z) :
  let st' := Viewer.on_postgres_changes
               (Viewer.NewRow student_id date_index status) st in
  length (Viewer.students st') = length (Viewer.students st)
  /\ Viewer.loading st' = Viewer.loading st
  /\ Viewer.isConnected st' = Viewer.isConnected st
  /\ Viewer.error st' = Viewer.error st
  /\ forall (n : nat) (x : Student),
       Viewer.students st !! n = Some x ->
       exists x' : Student,
         Viewer.students st' !! n = Some x'
         /\ id x' = id x /\ name x' = name x
         /\ length (attendance x') = length (attendance x)
         /\ (id x <> JS.String_of_int student_id -> x' = x)
         /\ (forall j : nat, Z.of_nat j <> date_index ->
                             attendance x' !! j = attendance x !! j)
         /\ (id x = JS.String_of_int student_id ->
             forall j : nat, Z.of_nat j = date_index ->
                             (j < length (attendance x))%nat ->
                             attendance x' !! j = Some status).
Proof.
  cbv zeta. cbn [Viewer.on_postgres_changes Viewer.students Viewer.loading
                 Viewer.isConnected Viewer.error].
  split; [apply length_map|]. repeat (split; [reflexivity|]).
  intros n x Hx. exists (Viewer.apply_change student_id date_index status x).
  split; [rewrite list_lookup_fmap, Hx; reflexivity|].
  unfold Viewer.apply_change.
  destruct (String.eqb (id x) (JS.String_of_int student_id)) eqn:E.
  - apply String.eqb_eq in E. cbn [id name attendance].
    split; [reflexivity|]. split; [reflexivity|].
    split; [apply guarded_set_length|]. split; [intros H; contradiction|].
    split; [intros j Hj; now apply guarded_set_other|].
    intros _ j Hj Hlt. now apply guarded_set_same.
  - apply String.eqb_neq in E. repeat split; trivial. intros H. contradiction.
Qed.

Lemma realtime_overwrites_witness :
  exists x' : Student,
    Viewer.students
      (Viewer.on_postgres_changes (Viewer.NewRow 7 1 0)
         (Viewer.State [mkStudent "7" "n" [1; 1; 1]] false true None 1)) !! 0%nat
    = Some x'
    /\ attendance x' !! 1%nat = Some 0.
Proof.
  destruct (proj2 (proj2 (proj2 (proj2
              (realtime_overwrites
                 (Viewer.State [mkStudent "7" "n" [1; 1; 1]] false true None 1)
                 7 1 0)))) 0%nat (mkStudent "7" "n" [1; 1; 1]) eq_refl)
    as (x' & H1 & _ & _ & _ & _ & _ & H2).
  exists x'. split; [exact H1|].
  apply (H2 eq_refl 1%nat eq_refl). simpl. lia.
Defined.

(** C9: when the snapshot fetch fails, the viewer's roster becomes the
    seed names (each once, with id [index + 1]) with N marks each, all
    absent, sorted by [localeCompare] (adjacent names in order as soon as
    the comparison is total); the viewer is marked disconnected and no
    longer loading; and whatever is delivered to it afterwards,
    [fetchStudents] is not called again. *)
Theorem fetch_failure_fallback (localeCompare : string -> string -> Z)
    (o : Viewer.fetched) (st : Viewer.state) :
  Viewer.failed o = true ->
  let st' := Viewer.fetchStudents_settled localeCompare o st in
  Permutation
    (Viewer.students st')
    (imap (fun index n => mkStudent (JS.String_of_int (Z.of_nat index + 1)) n
                                    (replicate (length MEETING_DATES) 0))
          INITIAL_NAMES)
  /\ Permutation (map name (Viewer.students st')) INITIAL_NAMES
  /\ Forall (fun x => attendance x = replicate (Z.to_nat N) 0) (Viewer.students st')
  /\ Viewer.isConnected st' = false
  /\ Viewer.loading st' = false
  /\ ((forall a b, localeCompare a b <= 0 \/ localeCompare b a <= 0) ->
      ordered (fun a b => localeCompare (name a) (name b) <=? 0) (Viewer.students st'))
  /\ forall es : list Viewer.event,
       Viewer.fetch_calls (Viewer.run localeCompare st' es) = Viewer.fetch_calls st.
Proof.
  intros Hf. cbv zeta.
  assert (Hst : Viewer.fetchStudents_settled localeCompare o st
                = Viewer.State (Viewer.initialList localeCompare) false false
                    (Some "데이터 로딩 실패. Supabase 설정을 확인해주세요.")
                    (Viewer.fetch_calls st)).
  { destruct o; try discriminate; reflexivity. }
  rewrite Hst. cbn [Viewer.students Viewer.isConnected Viewer.loading].
  assert (Hp : Permutation
                 (Viewer.initialList localeCompare)
                 (imap (fun index n =>
                          mkStudent (JS.String_of_int (Z.of_nat index + 1)) n
                                    (replicate (length MEETING_DATES) 0))
                       INITIAL_NAMES)).
  { unfold Viewer.initialList, Viewer.sort_by_name. apply sort_by_perm. }
  split; [exact Hp|]. split.
  - rewrite Hp. rewrite imap_names; [reflexivity|]. reflexivity.
  - split.
    + rewrite Hp. apply Forall_forall. intros x Hx.
      apply elem_of_lookup_imap in Hx as (i & n & -> & _).
      reflexivity.
    + split; [reflexivity|]. split; [reflexivity|]. split.
      * intros Htot. unfold Viewer.initialList, Viewer.sort_by_name.
        apply sort_by_ordered. intros a b.
        destruct (Htot (name a) (name b)) as [H|H]; [left|right]; now apply Z.leb_le.
      * intros es. now rewrite run_fetch_calls.
Qed.

Lemma fetch_failure_fallback_witness :
  Viewer.isConnected
    (Viewer.fetchStudents_settled Viewer.byte_compare Viewer.StudentsError Viewer.mounted)
  = false
  /\ ordered (fun a b => Viewer.byte_compare (name a) (name b) <=? 0)
       (Viewer.students
          (Viewer.fetchStudents_settled Viewer.byte_compare Viewer.StudentsError
             Viewer.mounted)).
Proof.
  pose proof (fetch_failure_fallback Viewer.byte_compare Viewer.StudentsError
                Viewer.mounted eq_refl) as H.
  cbv zeta in H. destruct H as (_ & _ & _ & H1 & _ & H2 & _).
  split; [exact H1|exact (H2 byte_compare_total)].
Defined.

(** ** What every reachable store satisfies *)

Section WellFormed.

Lemma Q_same_refl (q : Q) : Store.Q_same q q = true.
Proof. unfold Store.Q_same. now rewrite Z.eqb_refl, Pos.eqb_refl. Qed.

Lemma of_Q_normal (q : Q) : Store.normal (Sqlite.of_Q q) = true.
Proof.
  unfold Store.normal, Sqlite.of_Q.
  destruct (Pos.eqb (Qden (Qred q)) 1) eqn:E; cbn [Sqlite.apply_affinity].
  - simpl. apply Z.eqb_refl.
  - unfold Sqlite.of_Q. rewrite Qcanon.Qred_involutive, E. simpl. apply Q_same_refl.
Qed.

(** A bound argument is already what an INTEGER column would keep. *)
Lemma param_normal (v : JS.value) (a : Sqlite.value) :
  Sqlite.param v = Some a -> Store.normal a = true.
Proof.
  destruct v as [| |b|q|s]; unfold Sqlite.param; cbn -[Sqlite.of_Q Store.normal];
    try discriminate; intros [= <-]; try reflexivity.
  - apply of_Q_normal.
  - destruct (Sqlite.AtoF s) as [q|] eqn:E; [apply of_Q_normal|].
    unfold Store.normal. cbn [Sqlite.apply_affinity]. rewrite E. simpl.
    apply String.eqb_refl.
Qed.

Lemma existsb_map_keys (f : Db.attendance_row -> Db.attendance_row)
    (k1 k2 : Sqlite.value) (l : list Db.attendance_row) :
  (forall r, Db.student_id (f r) = Db.student_id r
             /\ Db.date_index (f r) = Db.date_index r) ->
  existsb (Db.key_matches k1 k2) (map f l) = existsb (Db.key_matches k1 k2) l.
Proof.
  intros Hf. induction l as [|r l IH]; simpl; [reflexivity|].
  rewrite IH. f_equal. unfold Db.key_matches. destruct (Hf r) as [-> ->]. reflexivity.
Qed.

Lemma unique_keys_map (f : Db.attendance_row -> Db.attendance_row)
    (l : list Db.attendance_row) :
  (forall r, Db.student_id (f r) = Db.student_id r
             /\ Db.date_index (f r) = Db.date_index r) ->
  Store.unique_keys (map f l) = Store.unique_keys l.
Proof.
  intros Hf. induction l as [|r l IH]; simpl; [reflexivity|].
  rewrite IH, existsb_map_keys by exact Hf. destruct (Hf r) as [-> ->]. reflexivity.
Qed.

Lemma unique_keys_snoc (l : list Db.attendance_row) (a b : Sqlite.value) (st : Z) :
  existsb (Db.key_matches a b) l = false ->
  Store.unique_keys l = true ->
  Store.unique_keys (l ++ [Db.AttendanceRow a b st]) = true.
Proof.
  induction l as [|r l IH]; simpl; [reflexivity|].
  intros Hex Hu. apply orb_false_iff in Hex as [Hr Hl].
  apply andb_true_iff in Hu as [Hn Hu]. apply negb_true_iff in Hn.
  rewrite IH by assumption. rewrite andb_true_r. apply negb_true_iff.
  rewrite existsb_app, Hn. simpl. rewrite orb_false_r.
  unfold Db.key_matches in *. cbn [Db.student_id Db.date_index].
  now rewrite (eq_sym a), (eq_sym b).
Qed.

Lemma set_status_keys (v : Z) (a b : Sqlite.value) (r : Db.attendance_row) :
  Db.student_id (Db.set_status v a b r) = Db.student_id r
  /\ Db.date_index (Db.set_status v a b r) = Db.date_index r.
Proof. unfold Db.set_status. now destruct (Db.key_matches a b r). Qed.

Lemma wf_iff (d : Db.t) :
  Store.wf d = true <->
  forallb Store.normal_row (Db.attendance d) = true
  /\ Store.unique_keys (Db.attendance d) = true
  /\ forallb Store.binary_row (Db.attendance d) = true.
Proof. unfold Store.wf. rewrite !andb_true_iff. tauto. Qed.

Lemma insert_row_wf (a b : Sqlite.value) (st : Z) (d d' : Db.t) :
  Store.normal a = true -> Store.normal b = true -> st = 0 \/ st = 1 ->
  Db.insert_row a b st d = Some d' ->
  Store.wf d = true -> Store.wf d' = true.
Proof.
  intros Ha Hb Hst Hi. apply insert_row_inv in Hi as (Hex & _ & _ & Hatt & _).
  rewrite !wf_iff, Hatt, !forallb_app. intros (Hn & Hu & Hbin).
  rewrite Hn, Hbin. simpl. unfold Store.normal_row, Store.binary_row.
  cbn [Db.student_id Db.date_index Db.status]. rewrite Ha, Hb.
  split; [reflexivity|]. split; [now apply unique_keys_snoc|].
  destruct Hst as [-> | ->]; reflexivity.
Qed.

Lemma update_wf (v : Z) (a b : Sqlite.value) (d d' : Db.t) :
  v = 0 \/ v = 1 ->
  Db.attendance d' = map (Db.set_status v a b) (Db.attendance d) ->
  Store.wf d = true -> Store.wf d' = true.
Proof.
  intros Hv Hatt. rewrite !wf_iff, Hatt. intros (Hn & Hu & Hbin).
  rewrite unique_keys_map by (intros r; apply set_status_keys).
  split; [|split; [exact Hu|]].
  - rewrite forallb_forall in *. intros r Hr.
    apply in_map_iff in Hr as (r0 & <- & Hr0). specialize (Hn r0 Hr0).
    unfold Store.normal_row in *. now destruct (set_status_keys v a b r0) as [-> ->].
  - rewrite forallb_forall in *. intros r Hr.
    apply in_map_iff in Hr as (r0 & <- & Hr0). specialize (Hbin r0 Hr0).
    unfold Db.set_status. destruct (Db.key_matches a b r0); [|exact Hbin].
    unfold Store.binary_row. cbn [Db.status]. destruct Hv as [-> | ->]; reflexivity.
Qed.

Lemma toggle_wf (d : Db.t) (clients : list Server.client)
    (studentId dateIndex : JS.value) :
  Store.wf d = true ->
  Store.wf (Server.db (Server.toggle d clients studentId dateIndex)) = true.
Proof.
  intros Hwf.
  destruct (toggle_cases d clients studentId dateIndex)
    as [Hm|Hm Hp|a b r d' Hm Ha Hb Hf newStatus Hd'|a b d' Hm Ha Hb Hf Hi
        |a b Hm Ha Hb Hf Hi]; cbn [Server.db]; trivial.
  - apply (update_wf newStatus a b d); [|now subst d'|exact Hwf].
    unfold newStatus. destruct (Db.status r =? 1); auto.
  - apply (insert_row_wf a b 1 d); eauto using param_normal.
Qed.

Lemma for_each_preserves {A : Type} (P : Db.t -> Prop)
    (body : A -> Db.t -> option Db.t) (l : list A) :
  (forall x d d', body x d = Some d' -> P d -> P d') ->
  forall d d', Db.for_each body l d = Some d' -> P d -> P d'.
Proof.
  intros Hbody. induction l as [|x l IH]; intros d d'; simpl.
  - now intros [= <-].
  - destruct (body x d) as [d1|] eqn:E; [|discriminate]. eauto.
Qed.

Lemma normal_INTEGER (z : Z) : Store.normal (Sqlite.INTEGER z) = true.
Proof. unfold Store.normal. simpl. apply Z.eqb_refl. Qed.

Lemma seed_all_wf (d d' : Db.t) :
  Db.seed_all d = Some d' -> Store.wf d = true -> Store.wf d' = true.
Proof.
  apply (for_each_preserves (fun d => Store.wf d = true)).
  intros name d0 d1. unfold Db.seed_student, Db.insertStudent. intros H Hwf.
  refine (for_each_preserves (fun d => Store.wf d = true) _ _ _ _ _ H Hwf).
  intros i d2 d3. unfold Db.insertAttendance. rewrite !param_int. simpl.
  apply insert_row_wf; auto using normal_INTEGER.
Qed.

Lemma seed_if_empty_wf (d : Db.t) :
  Store.wf d = true -> Store.wf (fst (Db.seed_if_empty d)) = true.
Proof.
  intros Hwf. unfold Db.seed_if_empty, Db.transaction.
  destruct (_ =? 0); [|exact Hwf].
  destruct (Db.seed_all d) eqn:E; simpl; [|exact Hwf].
  now apply (seed_all_wf d).
Qed.

(** *** The foreign key *)

Lemma references_student_mono (d d' : Db.t) (v : Sqlite.value) :
  (forall s, In s (Db.students d) -> In s (Db.students d')) ->
  Db.references_student d v = true -> Db.references_student d' v = true.
Proof.
  intros Hsub. unfold Db.references_student. destruct v as [|z|q|t]; trivial;
    rewrite !existsb_exists; intros (x & Hx & He); exists x; auto.
Qed.

Lemma fk_holds_iff (d : Db.t) :
  Store.fk_holds d = true <->
  forall r, In r (Db.attendance d) -> Db.references_student d (Db.student_id r) = true.
Proof. unfold Store.fk_holds. apply forallb_forall. Qed.

Lemma toggle_fk_holds (d : Db.t) (clients : list Server.client)
    (studentId dateIndex : JS.value) :
  Db.foreign_keys d = true -> Store.fk_holds d = true ->
  Store.fk_holds (Server.db (Server.toggle d clients studentId dateIndex)) = true.
Proof.
  intros Hfk Hh.
  destruct (toggle_cases d clients studentId dateIndex)
    as [Hm|Hm Hp|a b r d' Hm Ha Hb Hf newStatus Hd'|a b d' Hm Ha Hb Hf Hi
        |a b Hm Ha Hb Hf Hi]; cbn [Server.db]; trivial.
  - rewrite fk_holds_iff in *. subst d'. cbn [Db.attendance]. intros x Hx.
    apply in_map_iff in Hx as (x0 & <- & Hx0).
    destruct (set_status_keys newStatus a b x0) as [-> _].
    exact (Hh x0 Hx0).
  - apply insert_row_inv in Hi as (_ & Href & Hst & Hatt & _).
    rewrite fk_holds_iff in *. rewrite Hatt. intros x Hx.
    apply (references_student_mono d); [now rewrite Hst|].
    apply in_app_or in Hx as [Hx|[<-|[]]]; [now apply Hh|]. now apply Href.
Qed.

Lemma seed_if_empty_same_when_seeded (d : Db.t) :
  Db.students d <> [] -> fst (Db.seed_if_empty d) = d.
Proof. intros H. now rewrite seed_if_empty_nonempty. Qed.

End WellFormed.

(** Every store the server can reach from a new database file keeps the
    engine's and the seed's guarantees: the participants are the seeded
    ones, foreign keys are enforced and hold, keys are affinity-normal and
    unique, every mark is 0 or 1, and every participant has exactly one
    mark for every index below N. *)
Theorem reachable_invariants (d : Db.t) :
  reachable d ->
  Db.students d = Db.students Store.seeded
  /\ Db.foreign_keys d = true
  /\ Store.fk_holds d = true
  /\ Store.wf d = true
  /\ Store.complete d = true.
Proof.
  induction 1 as [|d clients studentId dateIndex Hr IH|d Hr IH].
  - repeat split; vm_compute; reflexivity.
  - destruct IH as (Hst & Hfk & Hh & Hwf & Hc).
    destruct (toggle_students d clients studentId dateIndex) as (Hst' & Hfk' & _).
    split; [congruence|]. split; [congruence|].
    split; [now apply toggle_fk_holds|]. split; [now apply toggle_wf|].
    apply (complete_preserved d); [apply toggle_only_new_pairs|exact Hst'|exact Hc].
  - destruct IH as (Hst & Hfk & Hh & Hwf & Hc).
    rewrite seed_if_empty_same_when_seeded; [auto|].
    rewrite Hst. vm_compute. discriminate.
Qed.

Lemma reachable_invariants_witness :
  Store.wf (Server.db (Server.toggle Store.seeded [] (JS.int 2) (JS.int 12))) = true.
Proof.
  apply (reachable_invariants
           (Server.db (Server.toggle Store.seeded [] (JS.int 2) (JS.int 12)))).
  apply reach_toggle. apply reach_start.
Defined.

(** ** The answers of the toggle handler *)

Section Answers.




Lemma find_key_NULL (a : Sqlite.value) (l : list Db.attendance_row) :
  List.find (Db.key_matches a Sqlite.NULL) l = None.
Proof.
  induction l as [|r l IH]; simpl; [reflexivity|].
  unfold Db.key_matches at 1.
  replace (Sqlite.eq (Db.date_index r) Sqlite.NULL) with false
    by (now destruct (Db.date_index r)).
  now rewrite andb_false_r.
Qed.

End Answers.

(** A successful toggle answers 0 or 1, whatever number the row held: 0
    exactly when the stored mark was 1, and 1 otherwise (mark 0, any other
    stored number, or no row). *)
Theorem toggle_answer_binary (d : Db.t) (clients : list Server.client)
    (studentId dateIndex : JS.value) (v : Z) :
  Server.reply (Server.toggle d clients studentId dateIndex) = Server.Success v ->
  (v = 0 \/ v = 1)
  /\ (v = 0 <-> Db.selectStatus studentId dateIndex d = Some (Some 1)).
Proof.
  destruct (toggle_cases d clients studentId dateIndex)
    as [Hm|Hm Hp|a b r d' Hm Ha Hb Hf newStatus Hd'|a b d' Hm Ha Hb Hf Hi
        |a b Hm Ha Hb Hf Hi]; cbn [Server.reply]; try discriminate;
    intros [= <-]; unfold Db.selectStatus; rewrite Ha, Hb; simpl; rewrite Hf; simpl.
  - unfold newStatus. destruct (Z.eqb_spec (Db.status r) 1) as [->|Hne].
    + split; [now left|]. tauto.
    + split; [now right|]. split; [discriminate|]. intros [= H]. contradiction.
  - split; [now right|]. split; discriminate.
Qed.

Lemma toggle_answer_binary_witness :
  (1 = 0 \/ 1 = 1)
  /\ (1 = 0 <-> Db.selectStatus (JS.int 4) (JS.int 2) Store.seeded = Some (Some 1)).
Proof.
  apply (toggle_answer_binary Store.seeded [] (JS.int 4) (JS.int 2) 1).
  vm_compute. reflexivity.
Defined.



(** A [null] date index passes the guard and is stored as NULL, which
    equals nothing, itself included: for an existing participant every
    such toggle answers 1 and appends one more row; the marks of the
    snapshot do not change. *)
Theorem toggle_null_index (d : Db.t) (clients : list Server.client)
    (studentId : JS.value) (s : Z) :
  JS.truthy studentId = true ->
  Store.names_student studentId s -> In s (map Db.s_id (Db.students d)) ->
  let r := Server.toggle d clients studentId JS.Null in
  Server.reply r = Server.Success 1
  /\ Db.attendance (Server.db r)
     = Db.attendance d ++ [Db.AttendanceRow (Sqlite.INTEGER s) Sqlite.NULL 1]
  /\ Db.selectStatus studentId JS.Null (Server.db r) = Some None
  /\ Server.listSnapshot (Server.db r) = Server.listSnapshot d.
Proof.
  intros Ht Hs Hin. red in Hs. cbv zeta.
  assert (Hm : Server.missing studentId JS.Null = false)
    by (unfold Server.missing; now rewrite Ht).
  assert (Hb : Sqlite.param JS.Null = Some Sqlite.NULL) by reflexivity.
  rewrite (toggle_absent d clients _ _ _ _ Hm Hs Hb (find_key_NULL _ _)).
  unfold Db.insert_row. rewrite (find_none_existsb _ _ (find_key_NULL _ _)).
  assert (Href : Db.references_student d (Sqlite.INTEGER s) = true).
  { unfold Db.references_student. apply existsb_exists.
    apply in_map_iff in Hin as (st & <- & Hst). exists st.
    split; [exact Hst|apply eq_INTEGER_refl]. }
  rewrite Href, andb_false_r. cbn [Server.db Server.reply Db.attendance].
  split; [reflexivity|]. split; [reflexivity|]. split.
  - unfold Db.selectStatus. rewrite Hs, Hb. simpl. now rewrite find_key_NULL.
  - apply listSnapshot_ext; [reflexivity|]. intros s0. now apply fold_mark_snoc.
Qed.

Lemma toggle_null_index_witness :
  Server.reply (Server.toggle Store.seeded [] (JS.int 5) JS.Null) = Server.Success 1.
Proof.
  apply (toggle_null_index Store.seeded [] (JS.int 5) 5).
  - reflexivity.
  - vm_compute. reflexivity.
  - vm_compute. tauto.
Defined.

(** ** The id strings of the snapshot, read back by the database *)

Section IdStrings.

Lemma digits_uint_acc (u : Decimal.uint) (acc : positive) (n : nat) :
  Sqlite.digits (list_ascii_of_string (NilEmpty.string_of_uint u)) (Z.pos acc) n
  = (Z.pos (Pos.of_uint_acc u acc), (n + Decimal.nb_digits u)%nat, []).
Proof.
  revert acc n. induction u as [|u IH|u IH|u IH|u IH|u IH|u IH|u IH|u IH|u IH|u IH];
    intros acc n; cbn [NilEmpty.string_of_uint list_ascii_of_string Sqlite.digits
                       Pos.of_uint_acc Decimal.nb_digits];
    [now rewrite Nat.add_0_r|..];
    change (Sqlite.digit _) with (Some 0) || change (Sqlite.digit _) with (Some 1)
    || change (Sqlite.digit _) with (Some 2) || change (Sqlite.digit _) with (Some 3)
    || change (Sqlite.digit _) with (Some 4) || change (Sqlite.digit _) with (Some 5)
    || change (Sqlite.digit _) with (Some 6) || change (Sqlite.digit _) with (Some 7)
    || change (Sqlite.digit _) with (Some 8) || change (Sqlite.digit _) with (Some 9);
    cbv iota beta.
  - replace (10 * Z.pos acc + 0) with (Z.pos (10 * acc)) by lia.
    rewrite IH. f_equal. f_equal. lia.
  - replace (10 * Z.pos acc + 1) with (Z.pos (1 + 10 * acc)) by lia.
    rewrite IH. f_equal. f_equal. lia.
  - replace (10 * Z.pos acc + 2) with (Z.pos (2 + 10 * acc)) by lia.
    rewrite IH. f_equal. f_equal. lia.
  - replace (10 * Z.pos acc + 3) with (Z.pos (3 + 10 * acc)) by lia.
    rewrite IH. f_equal. f_equal. lia.
  - replace (10 * Z.pos acc + 4) with (Z.pos (4 + 10 * acc)) by lia.
    rewrite IH. f_equal. f_equal. lia.
  - replace (10 * Z.pos acc + 5) with (Z.pos (5 + 10 * acc)) by lia.
    rewrite IH. f_equal. f_equal. lia.
  - replace (10 * Z.pos acc + 6) with (Z.pos (6 + 10 * acc)) by lia.
    rewrite IH. f_equal. f_equal. lia.
  - replace (10 * Z.pos acc + 7) with (Z.pos (7 + 10 * acc)) by lia.
    rewrite IH. f_equal. f_equal. lia.
  - replace (10 * Z.pos acc + 8) with (Z.pos (8 + 10 * acc)) by lia.
    rewrite IH. f_equal. f_equal. lia.
  - replace (10 * Z.pos acc + 9) with (Z.pos (9 + 10 * acc)) by lia.
    rewrite IH. f_equal. f_equal. lia.
Qed.

Lemma digits_uint (u : Decimal.uint) (n : nat) :
  Sqlite.digits (list_ascii_of_string (NilEmpty.string_of_uint u)) 0 n
  = (Z.of_N (Pos.of_uint u), (n + Decimal.nb_digits u)%nat, []).
Proof.
  revert n. induction u as [|u IH|u IH|u IH|u IH|u IH|u IH|u IH|u IH|u IH|u IH];
    intros n; cbn [NilEmpty.string_of_uint list_ascii_of_string Sqlite.digits
                   Pos.of_uint Decimal.nb_digits];
    [now rewrite Nat.add_0_r|..];
    change (Sqlite.digit _) with (Some 0) || change (Sqlite.digit _) with (Some 1)
    || change (Sqlite.digit _) with (Some 2) || change (Sqlite.digit _) with (Some 3)
    || change (Sqlite.digit _) with (Some 4) || change (Sqlite.digit _) with (Some 5)
    || change (Sqlite.digit _) with (Some 6) || change (Sqlite.digit _) with (Some 7)
    || change (Sqlite.digit _) with (Some 8) || change (Sqlite.digit _) with (Some 9);
    cbv iota beta; change (10 * 0 + ?k) with k;
    [rewrite IH; f_equal; f_equal; lia|..];
    rewrite digits_uint_acc; cbn [Z.of_N]; f_equal; f_equal; lia.
Qed.

Lemma to_uint_digits (p : positive) :
  Sqlite.digits (list_ascii_of_string (NilZero.string_of_uint (Pos.to_uint p))) 0 0%nat
  = (Z.pos p, Decimal.nb_digits (Pos.to_uint p), []).
Proof.
  assert (Hnz : NilZero.string_of_uint (Pos.to_uint p)
                = NilEmpty.string_of_uint (Pos.to_uint p)).
  { pose proof (Unsigned.to_uint_nonnil p). unfold NilZero.string_of_uint.
    now destruct (Pos.to_uint p). }
  rewrite Hnz, digits_uint, DecimalPos.Unsigned.of_to. reflexivity.
Qed.

(** An optional minus sign and digits, at least one: what the recogniser
    makes of it. *)
Lemma AtoF_signed_digits (neg : bool) (s : string) (z : Z) (n : nat) :
  Sqlite.digits (list_ascii_of_string s) 0 0%nat = (z, n, []) -> s <> "" ->
  Sqlite.AtoF (if neg then String "-" s else s)
  = Some (inject_Z ((if neg then - z else z) * 1)).
Proof.
  intros Hd Hs. destruct s as [|c s']; [congruence|].
  cbn [list_ascii_of_string] in Hd.
  destruct (Sqlite.digit c) as [d0|] eqn:Hc;
    [|simpl in Hd; rewrite Hc in Hd; discriminate].
  destruct (digit_char c d0 (list_ascii_of_string s') Hc) as (Hsp & Hsg & _).
  assert (Hn : (1 <= n)%nat).
  { pose proof (digits_count (list_ascii_of_string s') (10 * 0 + d0) 1) as Hn1.
    simpl in Hd. rewrite Hc in Hd. rewrite Hd in Hn1. exact Hn1. }
  unfold Sqlite.AtoF. destruct neg.
  - cbn [list_ascii_of_string Sqlite.skip_spaces].
    change (Sqlite.isspace "-") with false. cbv iota.
    change (Sqlite.sign ("-"%char :: c :: list_ascii_of_string s'))
      with (true, c :: list_ascii_of_string s').
    cbv iota beta. rewrite Hd. cbn.
    destruct n; [lia|]. reflexivity.
  - cbn [list_ascii_of_string Sqlite.skip_spaces]. rewrite Hsp, Hsg, Hd. cbn.
    destruct n; [lia|]. reflexivity.
Qed.

Lemma string_of_uint_nonempty (p : positive) :
  NilZero.string_of_uint (Pos.to_uint p) <> "".
Proof.
  pose proof (Unsigned.to_uint_nonnil p). unfold NilZero.string_of_uint.
  destruct (Pos.to_uint p); simpl; congruence.
Qed.

Lemma AtoF_String_of_int (z : Z) :
  Sqlite.AtoF (JS.String_of_int z) = Some (inject_Z (z * 1)).
Proof.
  unfold JS.String_of_int. destruct z as [|p|p]; [reflexivity|..];
    cbn [Z.to_int NilZero.string_of_int].
  - apply (AtoF_signed_digits false _ (Z.pos p) _ (to_uint_digits p)).
    apply string_of_uint_nonempty.
  - apply (AtoF_signed_digits true _ (Z.pos p) _ (to_uint_digits p)).
    apply string_of_uint_nonempty.
Qed.

Lemma param_String_of_int (z : Z) :
  Sqlite.param (JS.Str (JS.String_of_int z)) = Some (Sqlite.INTEGER z).
Proof.
  unfold Sqlite.param. cbn [Sqlite.bind fmap option_fmap option_map Sqlite.apply_affinity].
  rewrite AtoF_String_of_int, Z.mul_1_r, of_Q_inject_Z. reflexivity.
Qed.

Lemma String_of_int_inj (x y : Z) :
  JS.String_of_int x = JS.String_of_int y -> x = y.
Proof.
  intros H. pose proof (param_String_of_int x) as Hx.
  rewrite H, param_String_of_int in Hx. congruence.
Qed.

Lemma truthy_int (z : Z) : JS.truthy (JS.int z) = negb (z =? 0).
Proof.
  unfold JS.truthy, JS.int. f_equal.
  change (Qeq_bool (inject_Z z) 0)
    with (Sqlite.eq (Sqlite.INTEGER z) (Sqlite.INTEGER 0)).
  apply eq_INTEGER.
Qed.

Lemma truthy_String_of_int (z : Z) : JS.truthy (JS.Str (JS.String_of_int z)) = true.
Proof.
  simpl. apply negb_true_iff, String.eqb_neq, String_of_int_nonempty.
Qed.

End IdStrings.

(** The id the snapshot gives a participant, [String(s.id)], sent back as
    [studentId], is bound to the integer id it was made from; a toggle
    with it answers, stores and addresses its event exactly as a toggle
    with the number does (for a non-zero id: the number 0 is falsy and is
    refused by the guard, the string "0" is not). *)
Theorem snapshot_id_round_trip (z : Z) :
  Sqlite.param (JS.Str (JS.String_of_int z)) = Some (Sqlite.INTEGER z)
  /\ (forall y : Z, JS.String_of_int y = JS.String_of_int z -> y = z)
  /\ forall (d : Db.t) (clients : list Server.client) (dateIndex : JS.value),
       z <> 0 ->
       Server.db (Server.toggle d clients (JS.Str (JS.String_of_int z)) dateIndex)
       = Server.db (Server.toggle d clients (JS.int z) dateIndex)
       /\ Server.reply (Server.toggle d clients (JS.Str (JS.String_of_int z)) dateIndex)
          = Server.reply (Server.toggle d clients (JS.int z) dateIndex)
       /\ map fst (Server.sent (Server.toggle d clients (JS.Str (JS.String_of_int z))
                                  dateIndex))
          = map fst (Server.sent (Server.toggle d clients (JS.int z) dateIndex)).
Proof.
  split; [apply param_String_of_int|]. split; [intros y; apply String_of_int_inj|].
  intros d clients dateIndex Hz.
  unfold Server.toggle, Server.missing.
  rewrite truthy_int, truthy_String_of_int.
  replace (z =? 0) with false by (symmetry; now apply Z.eqb_neq).
  cbn [negb orb]. destruct (JS.is_undefined dateIndex); [auto|].
  unfold Server.toggle_try, Db.selectStatus, Db.updateStatus, Db.insertAttendance.
  rewrite param_String_of_int, param_int.
  destruct (Sqlite.param dateIndex) as [b|]; simpl; [|auto].
  destruct (List.find _ _) as [r|]; simpl.
  - unfold Server.broadcast. rewrite !map_map. auto.
  - destruct (Db.insert_row _ _ _ _); simpl; [|auto].
    unfold Server.broadcast. rewrite !map_map. auto.
Qed.

Lemma snapshot_id_round_trip_witness :
  Server.reply (Server.toggle Store.seeded [] (JS.Str (JS.String_of_int 7)) (JS.int 2))
  = Server.reply (Server.toggle Store.seeded [] (JS.int 7) (JS.int 2)).
Proof.
  apply (proj2 (proj2 (snapshot_id_round_trip 7)) Store.seeded [] (JS.int 2)).
  discriminate.
Defined.

(** ** What a toggle changes in the snapshot *)

Section Frame.

Lemma filter_map_commute {A : Type} (p : A -> bool) (f : A -> A) (l : list A) :
  (forall x, p (f x) = p x) ->
  List.filter p (map f l) = map f (List.filter p l).
Proof.
  intros H. induction l as [|x l IH]; simpl; [reflexivity|].
  rewrite H. destruct (p x); simpl; now rewrite IH.
Qed.

Lemma last_map {A B : Type} (f : A -> B) (l : list A) :
  last (map f l) = f <$> last l.
Proof. apply (fmap_last f l). Qed.

Lemma student_id_is_set_status (x v : Z) (a b : Sqlite.value) (r : Db.attendance_row) :
  Server.student_id_is x (Db.set_status v a b r) = Server.student_id_is x r.
Proof.
  unfold Server.student_id_is. now destruct (set_status_keys v a b r) as [-> _].
Qed.

Lemma index_is_set_status (j : nat) (v : Z) (a b : Sqlite.value) (r : Db.attendance_row) :
  Store.index_is j (Db.set_status v a b r) = Store.index_is j r.
Proof.
  unfold Store.index_is. now destruct (set_status_keys v a b r) as [_ ->].
Qed.

(** A row of participant [x] matches the key of participant [s] only when
    [x] is [s]. *)
Lemma student_id_is_key (x s : Z) (r : Db.attendance_row) :
  Server.student_id_is x r = true ->
  Sqlite.eq (Db.student_id r) (Sqlite.INTEGER s) = true -> x = s.
Proof.
  intros Hx He. apply student_id_is_eq in Hx.
  assert (H : Sqlite.eq (Sqlite.INTEGER x) (Sqlite.INTEGER s) = true).
  { eapply eq_trans; [|exact He]. now rewrite eq_sym. }
  rewrite eq_INTEGER in H. now apply Z.eqb_eq.
Qed.

Lemma index_is_key (j : nat) (k : Z) (r : Db.attendance_row) :
  0 <= k -> Store.index_is j r = true ->
  Sqlite.eq (Db.date_index r) (Sqlite.INTEGER k) = true -> j = Z.to_nat k.
Proof.
  intros Hk Hj He. unfold Store.index_is in Hj.
  rewrite (array_index_eq_INTEGER _ _ He) in Hj.
  destruct (0 <=? k) eqn:E; [|apply Z.leb_gt in E; lia].
  now apply Nat.eqb_eq in Hj.
Qed.

Lemma key_of_shown_row (s k : Z) (r : Db.attendance_row) :
  0 <= k -> Store.normal_row r = true ->
  Server.student_id_is s r = true -> Store.index_is (Z.to_nat k) r = true ->
  Db.key_matches (Sqlite.INTEGER s) (Sqlite.INTEGER k) r = true.
Proof.
  intros Hk Hn Hs Hi. unfold Db.key_matches. apply andb_true_iff. split.
  - now apply student_id_is_eq.
  - unfold Store.index_is in Hi.
    destruct (Server.array_index (Db.date_index r)) as [i|] eqn:Ei; [|discriminate].
    apply Nat.eqb_eq in Hi. subst i.
    unfold Store.normal_row in Hn. apply andb_true_iff in Hn as [_ Hn].
    rewrite (normal_array_index _ _ Hn Ei), Z2Nat.id by lia.
    apply eq_INTEGER_refl.
Qed.

Lemma shown_row_of_key (s k : Z) (r : Db.attendance_row) :
  0 <= k ->
  Db.key_matches (Sqlite.INTEGER s) (Sqlite.INTEGER k) r = true ->
  Server.student_id_is s r = true /\ Store.index_is (Z.to_nat k) r = true.
Proof.
  intros Hk Hm. unfold Db.key_matches in Hm. apply andb_true_iff in Hm as [H1 H2].
  split.
  - unfold Server.student_id_is. destruct (Db.student_id r); try discriminate.
    + now rewrite eq_INTEGER in H1.
    + exact H1.
  - unfold Store.index_is. rewrite (array_index_eq_INTEGER _ _ H2).
    assert (E : (0 <=? k) = true) by now apply Z.leb_le.
    rewrite E. apply Nat.eqb_refl.
Qed.

(** The array of participant [x] after the UPDATE of the pair ([s], [k]). *)
Lemma fold_mark_update (x s k v : Z) (l : list Db.attendance_row)
    (r0 : Db.attendance_row) :
  0 <= k < N ->
  forallb Store.normal_row l = true ->
  In r0 l -> Db.key_matches (Sqlite.INTEGER s) (Sqlite.INTEGER k) r0 = true ->
  fold_left Server.mark
    (List.filter (Server.student_id_is x)
       (map (Db.set_status v (Sqlite.INTEGER s) (Sqlite.INTEGER k)) l))
    (replicate (length MEETING_DATES) 0)
  = (if x =? s then <[Z.to_nat k := v]> else fun arr => arr)
      (fold_left Server.mark (List.filter (Server.student_id_is x) l)
         (replicate (length MEETING_DATES) 0)).
Proof.
  intros Hk Hn Hin0 Hm0.
  set (f := Db.set_status v (Sqlite.INTEGER s) (Sqlite.INTEGER k)).
  set (init := replicate (length MEETING_DATES) 0).
  set (L := List.filter (Server.student_id_is x) l).
  rewrite filter_map_commute by (intros r; apply student_id_is_set_status).
  fold L.
  assert (Hlen : forall rows, length (fold_left Server.mark rows init) = Z.to_nat N).
  { intros rows. rewrite fold_mark_length. unfold init. now rewrite length_replicate. }
  assert (Hlook : forall j : nat, Z.of_nat j < N ->
            fold_left Server.mark (map f L) init !! j
            = match last (List.filter (Store.index_is j) L) with
              | Some r => Some (Db.status (f r))
              | None => init !! j
              end).
  { intros j Hj. rewrite fold_mark_lookup;
      [|unfold init; rewrite length_replicate; unfold N in Hj; lia|exact Hj].
    rewrite filter_map_commute by (intros r; apply index_is_set_status).
    rewrite last_map. now destruct (last _). }
  apply list_eq. intros j.
  destruct (Z_lt_dec (Z.of_nat j) N) as [Hj|Hj].
  2:{ rewrite lookup_ge_None_2 by (rewrite Hlen; lia).
      symmetry. apply lookup_ge_None_2.
      destruct (x =? s); [rewrite length_insert|]; rewrite Hlen; lia. }
  rewrite Hlook by exact Hj.
  assert (Hold : fold_left Server.mark L init !! j
                 = match last (List.filter (Store.index_is j) L) with
                   | Some r => Some (Db.status r)
                   | None => init !! j
                   end).
  { apply fold_mark_lookup; [|exact Hj].
    unfold init. rewrite length_replicate. unfold N in Hj. lia. }
  assert (Hrows : forall r, In r (List.filter (Store.index_is j) L) ->
            In r l /\ Server.student_id_is x r = true /\ Store.index_is j r = true).
  { intros r Hr. apply filter_In in Hr as [Hr Hi]. unfold L in Hr.
    apply filter_In in Hr as [Hr Hs]. auto. }
  destruct (Z.eqb_spec x s) as [->|Hxs].
  - destruct (Nat.eq_dec j (Z.to_nat k)) as [->|Hjk].
    + (* the toggled element *)
      rewrite list_lookup_insert_eq by (rewrite Hlen; lia).
      destruct (last (List.filter (Store.index_is (Z.to_nat k)) L)) as [r|] eqn:El.
      * assert (Hr : In r (List.filter (Store.index_is (Z.to_nat k)) L)).
        { apply list_elem_of_In, last_Some_elem_of. exact El. }
        apply Hrows in Hr as (Hrl & Hrs & Hri).
        rewrite forallb_forall in Hn.
        unfold f, Db.set_status.
        rewrite (key_of_shown_row s k r) by (auto; lia). reflexivity.
      * exfalso. apply shown_row_of_key in Hm0 as [Hs0 Hi0]; [|lia].
        assert (Hin : In r0 (List.filter (Store.index_is (Z.to_nat k)) L)).
        { apply filter_In. split; [|exact Hi0]. apply filter_In. auto. }
        apply last_None in El. rewrite El in Hin. destruct Hin.
    + (* another element of the same participant *)
      rewrite list_lookup_insert_ne by auto. rewrite Hold.
      destruct (last (List.filter (Store.index_is j) L)) as [r|] eqn:El; [|reflexivity].
      assert (Hr : In r (List.filter (Store.index_is j) L)).
      { apply list_elem_of_In, last_Some_elem_of. exact El. }
      apply Hrows in Hr as (Hrl & Hrs & Hri).
      unfold f, Db.set_status.
      destruct (Db.key_matches _ _ r) eqn:Ek; [|reflexivity].
      exfalso. unfold Db.key_matches in Ek. apply andb_true_iff in Ek as [_ Ek].
      apply Hjk. apply (index_is_key j k r); [lia|exact Hri|exact Ek].
  - (* another participant *)
    rewrite Hold.
    destruct (last (List.filter (Store.index_is j) L)) as [r|] eqn:El; [|reflexivity].
    assert (Hr : In r (List.filter (Store.index_is j) L)).
    { apply list_elem_of_In, last_Some_elem_of. exact El. }
    apply Hrows in Hr as (Hrl & Hrs & Hri).
    unfold f, Db.set_status.
    destruct (Db.key_matches _ _ r) eqn:Ek; [|reflexivity].
    exfalso. unfold Db.key_matches in Ek. apply andb_true_iff in Ek as [Ek _].
    apply Hxs. now apply (student_id_is_key x s r).
Qed.

(** The entry of participant [x] after a successful toggle of ([s], [k]). *)
Lemma toggle_to_frontend (d : Db.t) (clients : list Server.client)
    (studentId dateIndex : JS.value) (s k v : Z) (x : Db.student_row) :
  Store.wf d = true ->
  Store.names_student studentId s -> Store.names_index dateIndex k -> 0 <= k < N ->
  Server.reply (Server.toggle d clients studentId dateIndex) = Server.Success v ->
  Server.to_frontend
    (Db.attendance (Server.db (Server.toggle d clients studentId dateIndex))) x
  = let e := Server.to_frontend (Db.attendance d) x in
    if Db.s_id x =? s
    then mkStudent (id e) (name e) (<[Z.to_nat k := v]> (attendance e))
    else e.
Proof.
  intros Hwf Hs Hk Hr. red in Hs, Hk. apply wf_iff in Hwf as (Hn & _ & _).
  destruct (toggle_cases d clients studentId dateIndex)
    as [Hm|Hm Hp|a b r d' Hm Ha Hb Hf newStatus Hd'|a b d' Hm Ha Hb Hf Hi
        |a b Hm Ha Hb Hf Hi]; cbn [Server.reply Server.db]; try discriminate;
    intros [= <-]; rewrite Hs in Ha; rewrite Hk in Hb;
    injection Ha as <-; injection Hb as <-; cbv zeta; unfold Server.to_frontend;
    cbn [id name attendance].
  - subst d'. cbn [Db.attendance]. apply find_some in Hf as [Hin Hkey].
    rewrite (fold_mark_update (Db.s_id x) s k newStatus _ r Hr Hn Hin Hkey).
    now destruct (Db.s_id x =? s).
  - apply insert_row_inv in Hi as (_ & _ & _ & Hatt & _). rewrite Hatt.
    rewrite List.filter_app, fold_left_app. cbn [List.filter].
    unfold Server.student_id_is at 1. cbn [Db.student_id].
    rewrite (Z.eqb_sym s). destruct (Db.s_id x =? s); [|reflexivity].
    cbn [fold_left]. unfold Server.mark at 1. cbn [Db.date_index Db.status Server.array_index].
    assert (E1 : (0 <=? k) = true) by (apply Z.leb_le; lia).
    assert (E2 : (k <? N) = true) by (apply Z.ltb_lt; lia).
    now rewrite E1, Z2Nat.id, E2 by lia.
Qed.

Lemma String_of_int_eqb (x s : Z) :
  String.eqb (JS.String_of_int x) (JS.String_of_int s) = (x =? s).
Proof.
  destruct (Z.eqb_spec x s) as [->|Hne]; [apply String.eqb_refl|].
  apply String.eqb_neq. intros H. now apply String_of_int_inj in H.
Qed.

Lemma guarded_set_in_range (arr : list Z) (k v : Z) :
  0 <= k < Z.of_nat (length arr) ->
  Viewer.guarded_set (Z.of_nat (length arr)) arr k v = <[Z.to_nat k := v]> arr.
Proof.
  intros Hk. unfold Viewer.guarded_set.
  assert (E1 : (k <? Z.of_nat (length arr)) = true) by (apply Z.ltb_lt; lia).
  assert (E2 : (0 <=? k) = true) by (apply Z.leb_le; lia).
  now rewrite E1, E2.
Qed.

End Frame.

(** A successful toggle of a valid pair changes the snapshot in one place:
    the entries keep their order, ids and names; the array of the toggled
    participant has element [dateIndex] replaced by the answered
    [newStatus]; every other element and every other participant's array
    is as before. *)
Theorem toggle_changes_one_mark (d : Db.t) (clients : list Server.client)
    (studentId dateIndex : JS.value) (s k v : Z) :
  Store.wf d = true ->
  Store.names_student studentId s -> Store.names_index dateIndex k -> 0 <= k < N ->
  Server.reply (Server.toggle d clients studentId dateIndex) = Server.Success v ->
  Server.listSnapshot (Server.db (Server.toggle d clients studentId dateIndex))
  = map (fun e =>
           if String.eqb (id e) (JS.String_of_int s)
           then mkStudent (id e) (name e) (<[Z.to_nat k := v]> (attendance e))
           else e)
        (Server.listSnapshot d).
Proof.
  intros Hwf Hs Hk Hrange Hr. unfold Server.listSnapshot.
  rewrite (proj1 (toggle_students d clients studentId dateIndex)), map_map.
  apply map_ext. intros x.
  rewrite (toggle_to_frontend d clients studentId dateIndex s k v x Hwf Hs Hk Hrange Hr).
  cbv zeta. destruct (to_frontend_spec d x) as (Hid & _). cbv zeta in Hid.
  now rewrite Hid, String_of_int_eqb.
Qed.

Lemma toggle_changes_one_mark_witness :
  Server.listSnapshot (Server.db (Server.toggle Store.seeded [] (JS.int 3) (JS.int 4)))
  = map (fun e =>
           if String.eqb (id e) (JS.String_of_int 3)
           then mkStudent (id e) (name e) (<[Z.to_nat 4 := 1]> (attendance e))
           else e)
        (Server.listSnapshot Store.seeded).
Proof.
  apply (toggle_changes_one_mark Store.seeded [] (JS.int 3) (JS.int 4) 3 4 1).
  - vm_compute. reflexivity.
  - vm_compute. reflexivity.
  - vm_compute. reflexivity.
  - vm_compute. split; [discriminate|reflexivity].
  - vm_compute. reflexivity.
Defined.

(** Convergence of a viewer: a viewer that holds the snapshot taken before
    a successful toggle of a valid pair and applies the change
    ([student_id], [date_index], [status]) written by that toggle with its
    realtime callback holds the snapshot taken after it. *)
Theorem viewer_converges (d : Db.t) (clients : list Server.client)
    (studentId dateIndex : JS.value) (s k v : Z) (st : Viewer.state) :
  Store.wf d = true ->
  Store.names_student studentId s -> Store.names_index dateIndex k -> 0 <= k < N ->
  Server.reply (Server.toggle d clients studentId dateIndex) = Server.Success v ->
  Viewer.students st = Server.listSnapshot d ->
  Viewer.students (Viewer.on_postgres_changes (Viewer.NewRow s k v) st)
  = Server.listSnapshot (Server.db (Server.toggle d clients studentId dateIndex)).
Proof.
  intros Hwf Hs Hk Hrange Hr Hst. cbn [Viewer.on_postgres_changes Viewer.students].
  rewrite Hst. unfold Server.listSnapshot.
  rewrite (proj1 (toggle_students d clients studentId dateIndex)), map_map.
  apply map_ext. intros x.
  rewrite (toggle_to_frontend d clients studentId dateIndex s k v x Hwf Hs Hk Hrange Hr).
  cbv zeta. unfold Viewer.apply_change.
  destruct (to_frontend_spec d x) as (Hid & _ & Hlen & _). cbv zeta in Hid, Hlen.
  rewrite Hid, String_of_int_eqb. destruct (Db.s_id x =? s); [|reflexivity].
  rewrite guarded_set_in_range by lia. reflexivity.
Qed.

Lemma viewer_converges_witness :
  Viewer.students
    (Viewer.on_postgres_changes (Viewer.NewRow 3 4 1)
       (Viewer.State (Server.listSnapshot Store.seeded) false true None 1))
  = Server.listSnapshot (Server.db (Server.toggle Store.seeded [] (JS.int 3) (JS.int 4))).
Proof.
  apply (viewer_converges Store.seeded [] (JS.int 3) (JS.int 4) 3 4 1).
  - vm_compute. reflexivity.
  - vm_compute. reflexivity.
  - vm_compute. reflexivity.
  - vm_compute. split; [discriminate|reflexivity].
  - vm_compute. reflexivity.
  - reflexivity.
Defined.

(** ** Only an index below N reaches the snapshot *)

Section OnlyInRange.





End OnlyInRange.



(** ** The viewer's roster *)

Section Roster.

Lemma guarded_fold_length (rows : list Viewer.attendance_record) (arr : list Z) :
  length (fold_left (fun arr a =>
                       Viewer.guarded_set N arr (Viewer.date_index a) (Viewer.status a))
                    rows arr)
  = length arr.
Proof.
  revert arr. induction rows as [|a rows IH]; intros arr; simpl; [reflexivity|].
  rewrite IH. apply guarded_set_length.
Qed.

Lemma guarded_set_lookup (arr : list Z) (i v : Z) (k : nat) :
  Z.of_nat (length arr) = N -> Z.of_nat k < N ->
  Viewer.guarded_set N arr i v !! k = if i =? Z.of_nat k then Some v else arr !! k.
Proof.
  intros Hlen Hk. destruct (Z.eqb_spec i (Z.of_nat k)) as [->|Hne].
  - rewrite <- Hlen. apply guarded_set_same; [reflexivity|lia].
  - apply guarded_set_other. congruence.
Qed.

Lemma guarded_fold_lookup (rows : list Viewer.attendance_record) (arr : list Z) (k : nat) :
  Z.of_nat (length arr) = N -> Z.of_nat k < N ->
  fold_left (fun arr a =>
               Viewer.guarded_set N arr (Viewer.date_index a) (Viewer.status a))
            rows arr !! k
  = match last (List.filter (fun a => Viewer.date_index a =? Z.of_nat k) rows) with
    | Some a => Some (Viewer.status a)
    | None => arr !! k
    end.
Proof.
  revert arr. induction rows as [|a rows IH]; intros arr Hlen Hk; simpl; [reflexivity|].
  rewrite IH by (rewrite ?guarded_set_length; assumption).
  rewrite guarded_set_lookup by assumption.
  destruct (Viewer.date_index a =? Z.of_nat k); [|reflexivity].
  rewrite last_cons. destruct (last _); reflexivity.
Qed.

Lemma merge_spec (localeCompare : string -> string -> Z)
    (attendanceData : list Viewer.attendance_record) (s : Viewer.student_record) :
  let e := Viewer.merge attendanceData s in
  id e = JS.String_of_int (Viewer.s_id s)
  /\ name e = Viewer.s_name s
  /\ Z.of_nat (length (attendance e)) = N
  /\ forall k : nat, Z.of_nat k < N ->
       attendance e !! k
       = Some (match last (records_for attendanceData (Viewer.s_id s) k) with
               | Some a => Viewer.status a
               | None => 0
               end).
Proof.
  cbv zeta. unfold Viewer.merge. cbn [id name attendance].
  split; [reflexivity|]. split; [reflexivity|]. split.
  - now rewrite guarded_fold_length, length_replicate.
  - intros k Hk. rewrite guarded_fold_lookup;
      [|now rewrite length_replicate|exact Hk].
    unfold records_for. rewrite filter_filter.
    destruct (last _); [reflexivity|].
    apply lookup_replicate_2. unfold N in Hk. lia.
Qed.

Lemma apply_change_shaped (s k v : Z) (x : Student) :
  Z.of_nat (length (attendance x)) = N ->
  Z.of_nat (length (attendance (Viewer.apply_change s k v x))) = N.
Proof.
  unfold Viewer.apply_change. destruct (String.eqb _ _); [|trivial].
  cbn [attendance]. now rewrite guarded_set_length.
Qed.

Lemma handle_shaped (localeCompare : string -> string -> Z) (st : Viewer.state)
    (e : Viewer.event) :
  roster_shaped st -> roster_shaped (Viewer.handle localeCompare st e).
Proof.
  unfold roster_shaped. intros Hst. destruct e as [o|p|s]; cbn [Viewer.handle].
  - assert (Hi : Forall (fun x => Z.of_nat (length (attendance x)) = N)
                        (Viewer.initialList localeCompare)).
    { unfold Viewer.initialList, Viewer.sort_by_name. rewrite sort_by_perm.
      apply Forall_forall. intros x Hx.
      apply elem_of_lookup_imap in Hx as (i & n & -> & _). cbn [attendance].
      now rewrite length_replicate. }
    destruct o as [|sd|sd ad]; cbn [Viewer.fetchStudents_settled Viewer.students];
      trivial.
    unfold Viewer.sort_by_name. rewrite sort_by_perm.
    apply Forall_forall. intros x Hx. apply list_elem_of_In, in_map_iff in Hx as (s & <- & _).
    apply (merge_spec localeCompare).
  - destruct p as [s k v|]; cbn [Viewer.on_postgres_changes Viewer.students]; trivial.
    apply Forall_forall. intros x Hx. apply list_elem_of_In, in_map_iff in Hx as (x0 & <- & Hx0).
    apply apply_change_shaped.
    rewrite Forall_forall in Hst. apply Hst. now apply list_elem_of_In.
  - destruct s; cbn [Viewer.on_subscribe_status Viewer.students]; trivial.
Qed.

Lemma guarded_set_twice (bound : Z) (arr : list Z) (i v1 v2 : Z) :
  Viewer.guarded_set bound (Viewer.guarded_set bound arr i v1) i v2
  = Viewer.guarded_set bound arr i v2.
Proof.
  unfold Viewer.guarded_set. destruct (i <? bound); [|reflexivity].
  destruct (0 <=? i); [apply list_insert_insert_eq|reflexivity].
Qed.

End Roster.

(** When both queries return, the viewer's roster has one entry per
    participant row (the merged entries, reordered by the sort), each with
    the row's id as a string, its name and exactly N marks: element [k] is
    the status of the last attendance record of that participant with date
    index [k], and 0 when there is none; records with an index outside
    0..N-1 are ignored.  The viewer is then connected, not loading, and
    shows no error. *)
Theorem fetch_success_roster (localeCompare : string -> string -> Z)
    (studentsData : list Viewer.student_record)
    (attendanceData : list Viewer.attendance_record) (st : Viewer.state) :
  let st' := Viewer.fetchStudents_settled localeCompare
               (Viewer.Loaded studentsData attendanceData) st in
  Permutation (Viewer.students st') (map (Viewer.merge attendanceData) studentsData)
  /\ (forall s : Viewer.student_record,
        let e := Viewer.merge attendanceData s in
        id e = JS.String_of_int (Viewer.s_id s)
        /\ name e = Viewer.s_name s
        /\ Z.of_nat (length (attendance e)) = N
        /\ forall k : nat, Z.of_nat k < N ->
             attendance e !! k
             = Some (match last (records_for attendanceData (Viewer.s_id s) k) with
                     | Some a => Viewer.status a
                     | None => 0
                     end))
  /\ Viewer.isConnected st' = true
  /\ Viewer.loading st' = false
  /\ Viewer.error st' = None.
Proof.
  cbv zeta. cbn [Viewer.fetchStudents_settled Viewer.students Viewer.isConnected
                 Viewer.loading Viewer.error].
  split; [apply sort_by_perm|]. split; [|auto].
  intros s. apply (merge_spec localeCompare).
Qed.

(** Once the fetch has settled, with either outcome, every array of the
    roster has exactly N marks, and this stays so whatever realtime
    changes and channel statuses are delivered afterwards: the cards never
    read a mark that is not there. *)
Theorem roster_always_shaped (localeCompare : string -> string -> Z)
    (o : Viewer.fetched) (st : Viewer.state) (es : list Viewer.event) :
  roster_shaped
    (Viewer.run localeCompare (Viewer.fetchStudents_settled localeCompare o st) es).
Proof.
  assert (H0 : roster_shaped (Viewer.fetchStudents_settled localeCompare o
                                (Viewer.State [] true false None 0))).
  { apply (handle_shaped localeCompare _ (Viewer.Settled o)). constructor. }
  assert (H1 : roster_shaped (Viewer.fetchStudents_settled localeCompare o st)).
  { unfold roster_shaped in *. destruct o; exact H0. }
  clear H0. unfold Viewer.run.
  generalize dependent (Viewer.fetchStudents_settled localeCompare o st).
  induction es as [|e es IH]; intros s Hs; simpl; [exact Hs|].
  apply IH. now apply handle_shaped.
Qed.

(** Last write wins, per mark: of two realtime changes for the same
    (participant, date index) only the later one shows; in particular a
    change delivered twice is as good as delivered once. *)
Theorem realtime_last_write_wins (st : Viewer.state) (s k v1 v2 : Z) :
  Viewer.on_postgres_changes (Viewer.NewRow s k v2)
    (Viewer.on_postgres_changes (Viewer.NewRow s k v1) st)
  = Viewer.on_postgres_changes (Viewer.NewRow s k v2) st.
Proof.
  cbn [Viewer.on_postgres_changes Viewer.students Viewer.loading Viewer.isConnected
       Viewer.error Viewer.fetch_calls].
  f_equal. rewrite map_map. apply map_ext. intros x.
  unfold Viewer.apply_change at 2.
  destruct (String.eqb (id x) (JS.String_of_int s)) eqn:E.
  - unfold Viewer.apply_change. cbn [id name attendance]. rewrite E.
    now rewrite guarded_set_length, guarded_set_twice.
  - unfold Viewer.apply_change. now rewrite E.
Qed.

(** ** The rotating header text *)

Section Rotation.

Lemma sum_lengths_acc (l : list (list string)) (acc : Z) :
  fold_left (fun sum word => sum + Z.of_nat (length word)) l acc
  = acc + fold_left (fun sum word => sum + Z.of_nat (length word)) l 0.
Proof.
  revert acc. induction l as [|w l IH]; intros acc; simpl; [lia|].
  rewrite (IH (acc + _)), (IH (0 + _)). lia.
Qed.

Lemma totalChars_nonneg (l : list (list string)) : 0 <= TextRotate.totalChars l.
Proof.
  unfold TextRotate.totalChars. induction l as [|w l IH]; simpl; [lia|].
  rewrite sum_lengths_acc. lia.
Qed.

Lemma totalChars_app (l1 l2 : list (list string)) :
  TextRotate.totalChars (l1 ++ l2) = TextRotate.totalChars l1 + TextRotate.totalChars l2.
Proof.
  unfold TextRotate.totalChars. rewrite fold_left_app. apply sum_lengths_acc.
Qed.

Lemma imap_offsets (base : Z) (word : list string) :
  imap (fun charIndex _ => base + Z.of_nat charIndex) word
  = seqZ base (Z.of_nat (length word)).
Proof.
  revert base. induction word as [|c word IH]; intros base; [reflexivity|].
  rewrite imap_cons. cbn [length]. rewrite Nat2Z.inj_succ, seqZ_cons by lia.
  f_equal; [f_equal; lia|].
  replace (Z.pred (Z.succ (Z.of_nat (length word)))) with (Z.of_nat (length word)) by lia.
  rewrite <- IH. apply imap_ext. intros i x _. simpl. lia.
Qed.

Lemma stagger_indexes_from (pre rest : list (list string)) :
  concat (imap (fun wordIndex word =>
                  imap (fun charIndex _ =>
                          TextRotate.previousCharsCount (pre ++ rest)
                            (length pre + wordIndex)
                          + Z.of_nat charIndex) word) rest)
  = seqZ (TextRotate.totalChars pre) (TextRotate.totalChars rest).
Proof.
  revert pre. induction rest as [|word rest IH]; intros pre; [reflexivity|].
  rewrite imap_cons. cbn [concat].
  assert (H0 : TextRotate.previousCharsCount (pre ++ word :: rest) (length pre + 0)
               = TextRotate.totalChars pre).
  { unfold TextRotate.previousCharsCount, TextRotate.totalChars.
    now rewrite Nat.add_0_r, take_app_length. }
  rewrite H0, imap_offsets.
  replace (TextRotate.totalChars (word :: rest))
    with (Z.of_nat (length word) + TextRotate.totalChars rest)
    by (change (word :: rest) with ([word] ++ rest); rewrite totalChars_app;
        reflexivity).
  rewrite seqZ_app by (pose proof (totalChars_nonneg rest); lia).
  f_equal.
  replace (TextRotate.totalChars pre + Z.of_nat (length word))
    with (TextRotate.totalChars (pre ++ [word]))
    by (rewrite totalChars_app; reflexivity).
  rewrite <- (IH (pre ++ [word])). f_equal. apply imap_ext. intros i x _. simpl.
  apply imap_ext. intros j y _. simpl.
  rewrite <- app_assoc, length_app. simpl. do 2 f_equal. lia.
Qed.

End Rotation.

(** The rotation of the header: from an index of [texts], a step of
    [next] gives an index of [texts]; with [loop] the index after [n]
    steps is [(i + n) mod texts.length], so it cycles through every text,
    and without [loop] it is [min (i + n) (texts.length - 1)], so it stops
    on the last text.  With no text at all the index, from 0, only grows
    and never wraps. *)
Theorem next_rotation :
  (forall (texts_length i : Z) (loop : bool) (n : nat),
      0 <= i < texts_length ->
      0 <= TextRotate.next texts_length loop i < texts_length
      /\ Nat.iter n (TextRotate.next texts_length true) i
         = (i + Z.of_nat n) mod texts_length
      /\ Nat.iter n (TextRotate.next texts_length false) i
         = Z.min (i + Z.of_nat n) (texts_length - 1))
  /\ (forall (loop : bool) (n : nat),
        Nat.iter n (TextRotate.next 0 loop) 0 = Z.of_nat n).
Proof.
  split.
  - intros len i loop n Hi. split; [|split].
    + unfold TextRotate.next. destruct (Z.eqb_spec i (len - 1)); destruct loop; lia.
    + induction n as [|n IH]; [simpl; rewrite Z.add_0_r, Z.mod_small; lia|].
      rewrite Nat2Z.inj_succ, Nat.iter_succ, IH.
      pose proof (Z.mod_pos_bound (i + Z.of_nat n) len ltac:(lia)) as Hb.
      replace (i + Z.succ (Z.of_nat n)) with ((i + Z.of_nat n) + 1) by lia.
      rewrite <- (Zplus_mod_idemp_l (i + Z.of_nat n) 1 len).
      unfold TextRotate.next.
      destruct (Z.eqb_spec ((i + Z.of_nat n) mod len) (len - 1)) as [E|E].
      * rewrite E. replace (len - 1 + 1) with len by lia. now rewrite Z.mod_same by lia.
      * rewrite (Z.mod_small (_ mod _ + 1)) by lia. reflexivity.
    + induction n as [|n IH]; [simpl; lia|].
      rewrite Nat2Z.inj_succ, Nat.iter_succ, IH. unfold TextRotate.next.
      destruct (Z.eqb_spec (Z.min (i + Z.of_nat n) (len - 1)) (len - 1)); lia.
  - intros loop n. induction n as [|n IH]; [reflexivity|].
    rewrite Nat2Z.inj_succ, Nat.iter_succ, IH. unfold TextRotate.next.
    destruct (Z.eqb_spec (Z.of_nat n) (0 - 1)); lia.
Qed.

Lemma next_rotation_witness :
  Nat.iter 6 (TextRotate.next 4 true) 1 = (1 + Z.of_nat 6) mod 4.
Proof.
  apply (proj1 next_rotation 4 1 true 6%nat). lia.
Defined.

(** Every character of the rotating text gets its own stagger slot: the
    indexes passed to [getStaggerDelay] are 0, 1, ..., total-1 in reading
    order, each once, [total] being the number of characters; and for such
    an index the delay is a multiple [n * staggerDuration] with
    0 <= n <= total-1, whatever [staggerFrom] is. *)
Theorem stagger_slots (array : list (list string)) :
  TextRotate.stagger_indexes array = seqZ 0 (TextRotate.totalChars array)
  /\ forall (delay : Type) (times : Z -> delay) (from : TextRotate.staggerFrom)
            (index : Z),
       In index (TextRotate.stagger_indexes array) ->
       exists n : Z,
         0 <= n <= TextRotate.totalChars array - 1
         /\ TextRotate.getStaggerDelay delay times from index
              (TextRotate.totalChars array)
            = times n.
Proof.
  assert (H : TextRotate.stagger_indexes array = seqZ 0 (TextRotate.totalChars array)).
  { unfold TextRotate.stagger_indexes.
    pose proof (stagger_indexes_from [] array) as H. simpl in H. exact H. }
  split; [exact H|].
  intros delay times from index Hin. rewrite H in Hin.
  apply list_elem_of_In, elem_of_seqZ in Hin.
  set (total := TextRotate.totalChars array) in *.
  destruct from as [| | |m]; cbn [TextRotate.getStaggerDelay]; cbv zeta.
  - exists index. split; [lia|reflexivity].
  - exists (total - 1 - index). split; [lia|reflexivity].
  - exists (Z.abs (total / 2 - index)). split; [|reflexivity].
    assert (0 <= total / 2 <= total - 1).
    { split; [apply Z.div_pos; lia|].
      assert (total / 2 < total) by (apply Z.div_lt; lia). lia. }
    lia.
  - exists index. split; [lia|reflexivity].
Qed.

Lemma stagger_slots_witness :
  exists n : Z,
    0 <= n <= TextRotate.totalChars [["a"; "b"]; ["c"]] - 1
    /\ TextRotate.getStaggerDelay Z (fun n => n * 3) TextRotate.last 2
         (TextRotate.totalChars [["a"; "b"]; ["c"]])
       = (fun n => n * 3) n.
Proof.
  apply (proj2 (stagger_slots [["a"; "b"]; ["c"]]) Z (fun n => n * 3) TextRotate.last 2).
  vm_compute. tauto.
Defined.

(** ** Rowids *)

Section Rowids.

Lemma max_rowid_snoc (l : list Db.student_row) (x : Db.student_row) :
  Db.max_rowid (l ++ [x]) = Z.max (Db.max_rowid l) (Db.s_id x).
Proof.
  unfold Db.max_rowid. induction l as [|h l IH]; simpl; [lia|].
  rewrite IH. lia.
Qed.

Lemma seed_student_rowid (name : string) (d d' : Db.t) :
  Db.seed_student name d = Some d' ->
  Db.students d' = Db.students d ++ [Db.StudentRow (rowid_mark d + 1) name]
  /\ Db.sqlite_sequence d' = rowid_mark d + 1
  /\ rowid_mark d' = rowid_mark d + 1.
Proof.
  unfold Db.seed_student, Db.insertStudent. fold (rowid_mark d). intros H.
  apply insert_loop_inv in H as (H1 & _ & H3 & _). cbn [Db.students Db.sqlite_sequence] in *.
  split; [exact H1|]. split; [exact H3|].
  unfold rowid_mark at 1. rewrite H1, H3, max_rowid_snoc. cbn [Db.s_id].
  unfold rowid_mark. lia.
Qed.

Lemma seed_all_rowids (names : list string) (d d' : Db.t) :
  Db.for_each Db.seed_student names d = Some d' ->
  map Db.s_id (Db.students d')
  = map Db.s_id (Db.students d) ++ seqZ (rowid_mark d + 1) (Z.of_nat (length names))
  /\ map Db.s_name (Db.students d') = map Db.s_name (Db.students d) ++ names
  /\ rowid_mark d' = rowid_mark d + Z.of_nat (length names).
Proof.
  revert d. induction names as [|name names IH]; intros d; simpl.
  - intros [= <-]. rewrite !app_nil_r. split; [reflexivity|]. split; [reflexivity|lia].
  - destruct (Db.seed_student name d) as [d1|] eqn:E; [|discriminate].
    intros H. apply IH in H as (Hid & Hnm & Hm).
    apply seed_student_rowid in E as (Hs & _ & Hm1).
    rewrite Hid, Hnm, Hm, Hs, Hm1, !map_app. cbn [map Db.s_id Db.s_name].
    rewrite <- !app_assoc. cbn [app].
    split; [|split; [reflexivity|lia]].
    f_equal. rewrite ?Zpos_P_of_succ_nat, ?Nat2Z.inj_succ.
    rewrite (seqZ_cons (rowid_mark d + 1) (Z.succ _)) by lia.
    f_equal. f_equal; lia.
Qed.

End Rowids.

(** The ids seeding gives: whenever the seed transaction commits, the
    participants get, in the order of the seed names, the consecutive
    rowids that follow the high-water mark of the table, so no id handed
    out before is used again, and each participant's marks carry the id
    of that participant. *)
Theorem seeding_rowids (d : Db.t) :
  snd (Db.seed_if_empty d) = Db.Seeded ->
  let d' := fst (Db.seed_if_empty d) in
  map Db.s_id (Db.students d')
  = seqZ (rowid_mark d + 1) (Z.of_nat (length INITIAL_NAMES))
  /\ map Db.s_name (Db.students d') = INITIAL_NAMES
  /\ rowid_mark d' = rowid_mark d + Z.of_nat (length INITIAL_NAMES)
  /\ Db.attendance d'
     = Db.attendance d
       ++ flat_map Store.absent_marks (map Db.s_id (Db.students d')).
Proof.
  intros Hs. cbv zeta.
  pose proof (seed_if_empty_cases d) as Hc. rewrite Hs in Hc.
  destruct Hc as (Hempty & ids & Hlen & Hst & Hatt).
  assert (Hall : Db.seed_all d = Some (fst (Db.seed_if_empty d))).
  { revert Hs. unfold Db.seed_if_empty, Db.transaction.
    destruct (_ =? 0); [|discriminate].
    destruct (Db.seed_all d); [reflexivity|discriminate]. }
  apply seed_all_rowids in Hall as (Hid & Hnm & Hm). rewrite Hempty in Hid, Hnm.
  cbn [map app] in Hid, Hnm.
  split; [exact Hid|]. split; [exact Hnm|]. split; [exact Hm|].
  rewrite Hatt. f_equal. f_equal. rewrite Hst. clear -Hlen.
  revert Hlen. generalize INITIAL_NAMES. induction ids as [|i ids IH]; intros [|n names];
    simpl; try discriminate; trivial.
  intros [= H]. f_equal. now apply IH.
Qed.

Lemma seeding_rowids_witness :
  map Db.s_id (Db.students (fst (Db.seed_if_empty Db.fresh)))
  = seqZ (rowid_mark Db.fresh + 1) (Z.of_nat (length INITIAL_NAMES)).
Proof.
  apply (seeding_rowids Db.fresh). vm_compute. reflexivity.
Defined.

(** ** The words of the rotating text *)

Section Words.

Lemma split_space_nonempty (s : string) : split_space s <> [].
Proof.
  induction s as [|c r IH]; simpl; [discriminate|].
  destruct (Ascii.eqb c " "); [discriminate|].
  destruct (split_space r); discriminate.
Qed.

Lemma split_space_no_space (s w : string) (c : ascii) :
  In w (split_space s) -> In c (list_ascii_of_string w) -> c <> " "%char.
Proof.
  revert w. induction s as [|a r IH]; intros w; simpl.
  - intros [<-|[]]. simpl. tauto.
  - destruct (Ascii.eqb_spec a " ") as [->|Hne].
    + intros [<-|Hw]; [simpl; tauto|]. now apply IH.
    + destruct (split_space r) as [|w0 ws] eqn:E.
      * intros [<-|[]]. simpl. intros [<-|[]]. exact Hne.
      * intros [<-|Hw].
        -- simpl. intros [<-|Hc]; [exact Hne|]. apply (IH w0); [now left|exact Hc].
        -- apply IH. now right.
Qed.

Variable splitIntoCharacters : string -> list string.
Hypothesis characters_of_word :
  forall word, fold_right String.append "" (splitIntoCharacters word) = word.

Lemma rendered_cons (el : list string * bool) (els : list (list string * bool)) :
  rendered (el :: els)
  = (fold_right String.append "" (fst el) ++ (if snd el then " " else "")
     ++ rendered els)%string.
Proof. reflexivity. Qed.

Lemma rendered_elements (s : string) :
  rendered (elements splitIntoCharacters s) = s.
Proof.
  induction s as [|c r IH].
  - unfold elements. simpl. now rewrite characters_of_word.
  - unfold elements in *. cbn [split_space]. cbv zeta in *.
    destruct (Ascii.eqb_spec c " ") as [->|Hne].
    + assert (Hlen : length (split_space r) <> 0%nat).
      { pose proof (split_space_nonempty r). now destruct (split_space r). }
      rewrite imap_cons, rendered_cons. cbn [fst snd length].
      rewrite characters_of_word.
      replace (Z.of_nat 0 =? Z.of_nat (S (length (split_space r))) - 1) with false
        by (symmetry; apply Z.eqb_neq; lia).
      cbn [negb].
      rewrite (imap_ext _
                 (fun i word =>
                    (splitIntoCharacters word,
                     negb (Z.of_nat i =? Z.of_nat (length (split_space r)) - 1)))).
      * rewrite IH. reflexivity.
      * intros i w _. unfold compose. f_equal. f_equal.
        destruct (Z.eqb_spec (Z.of_nat (S i))
                    (Z.of_nat (S (length (split_space r))) - 1)),
                 (Z.eqb_spec (Z.of_nat i) (Z.of_nat (length (split_space r)) - 1));
          trivial; lia.
    + destruct (split_space r) as [|w ws] eqn:E; [now apply split_space_nonempty in E|].
      rewrite imap_cons, rendered_cons in *. cbn [fst snd length] in *.
      rewrite characters_of_word in *. rewrite <- IH at 1. reflexivity.
Qed.

End Words.

(** The spans [TextRotate] renders read the text back: the words of
    [currentText.split(" ")] contain no space, there is at least one, and
    the characters of each word followed by a space for every word but the
    last ([needsSpace]) spell the text again, for any segmenter whose
    characters concatenate to the word. *)
Theorem elements_spell_the_text (splitIntoCharacters : string -> list string)
    (currentText : string) :
  (forall word, fold_right String.append "" (splitIntoCharacters word) = word) ->
  rendered (elements splitIntoCharacters currentText) = currentText
  /\ length (elements splitIntoCharacters currentText)
     = length (split_space currentText)
  /\ split_space currentText <> []
  /\ forall (w : string) (c : ascii),
       In w (split_space currentText) -> In c (list_ascii_of_string w) ->
       c <> " "%char.
Proof.
  intros H. split; [now apply rendered_elements|]. split.
  - unfold elements. apply length_imap.
  - split; [apply split_space_nonempty|].
    intros w c. apply split_space_no_space.
Qed.

Lemma bytes_of_word (word : string) :
  fold_right String.append "" (bytes_of word) = word.
Proof.
  unfold bytes_of. induction word as [|c r IH]; simpl; [reflexivity|].
  now rewrite IH.
Qed.

Lemma elements_spell_the_text_witness :
  rendered (elements bytes_of "ab c") = "ab c".
Proof.
  apply (elements_spell_the_text bytes_of "ab c"). exact bytes_of_word.
Defined.

(** ** The count on a card *)

Section Count.

Lemma attendedCount_cons (v : Z) (arr : list Z) :
  attendedCount (v :: arr) = (if v =? 1 then 1 else 0) + attendedCount arr.
Proof.
  unfold attendedCount. simpl. destruct (v =? 1); simpl length; lia.
Qed.

Lemma attendedCount_bounds (arr : list Z) :
  0 <= attendedCount arr <= Z.of_nat (length arr).
Proof.
  induction arr as [|v arr IH]; [unfold attendedCount; simpl; lia|].
  rewrite attendedCount_cons. simpl length. destruct (v =? 1); lia.
Qed.

End Count.

(** The count shown on a card ("출석 c / N") follows the marks: it lies
    between 0 and the number of marks, equals that number exactly when
    every mark is 1, and replacing one mark changes it by what that mark
    contributed: minus one if the old mark was 1, plus one if the new
    mark is 1. *)
Theorem attendedCount_follows_marks (arr : list Z) :
  0 <= attendedCount arr <= Z.of_nat (length arr)
  /\ (attendedCount arr = Z.of_nat (length arr) <-> Forall (fun v => v = 1) arr)
  /\ forall (k : nat) (old v : Z),
       arr !! k = Some old ->
       attendedCount (<[k := v]> arr)
       = attendedCount arr - (if old =? 1 then 1 else 0) + (if v =? 1 then 1 else 0).
Proof.
  split; [apply attendedCount_bounds|]. split.
  - induction arr as [|x arr IH]; [split; [constructor|reflexivity]|].
    rewrite attendedCount_cons. simpl length.
    pose proof (attendedCount_bounds arr) as Hb.
    destruct (Z.eqb_spec x 1) as [->|Hne]; split.
    + intros H. constructor; [reflexivity|]. apply IH. lia.
    + intros H. apply Forall_cons in H as [_ H]. apply IH in H. lia.
    + intros H. lia.
    + intros H. apply Forall_cons in H as [H _]. contradiction.
  - induction arr as [|x arr IH]; intros k old v Hk; [discriminate|].
    destruct k as [|k].
    + injection Hk as ->. simpl. rewrite !attendedCount_cons. lia.
    + simpl in Hk. simpl. rewrite !attendedCount_cons, (IH k old v Hk). lia.
Qed.

Lemma attendedCount_follows_marks_witness :
  attendedCount (<[1%nat := 1]> [1; 0; 0])
  = attendedCount [1; 0; 0] - (if 0 =? 1 then 1 else 0) + (if 1 =? 1 then 1 else 0).
Proof.
  apply (proj2 (proj2 (attendedCount_follows_marks [1; 0; 0])) 1%nat 0 1).
  reflexivity.
Defined.
